(** * EM9301/EM9304 chipset adapter: patch upload, CRC-32 and baud rate command

    A shallow embedding of [chipset/em9301/btstack_chipset_em9301.c].

    - C unsigned integers are [Z] with the wrap-around written out
      ([u8], [u16], [u32]);
    - [uint8_t] arrays (the patch blob, the HCI command buffer) are
      [list byte]; a pointer [&a[i]] is the suffix [drop i a];
    - the file-level [static] upload variables are the fields of the record
      [session], threaded explicitly through [chipset_next_command];
    - [log_info]/[log_error] have no effect on the session, the buffer or the
      returned code; only the [log_error] of the baud rate command, its one
      failure signal, is kept as a flag of the result. *)

From Stdlib Require Import ZArith Lia Bool.
From Stdlib Require Import Strings.Byte.
From stdpp Require Import base list.

Local Open Scope Z_scope.

(** ** Machine integers *)

Definition u8  (z : Z) : Z := z mod 2 ^ 8.
Definition u16 (z : Z) : Z := z mod 2 ^ 16.
Definition u32 (z : Z) : Z := z mod 2 ^ 32.

Definition Z_of_byte (b : byte) : Z := Z.of_N (Byte.to_N b).

(** The conversion to [uint8_t]: the low eight bits. *)
Definition byte_of_Z (z : Z) : byte :=
  match Byte.of_N (Z.to_N (u8 z)) with
  | Some b => b
  | None => x00
  end.

(** [a[i]] for a byte array; reading outside the array is undefined in C and
    yields 0 here. *)
Definition byte_at (a : list byte) (i : Z) : Z :=
  if i <? 0 then 0 else
  match a !! Z.to_nat i with
  | Some b => Z_of_byte b
  | None => 0
  end.

(** [a[i] = v] with the conversion to [uint8_t]; a store outside the array is
    undefined in C and leaves the list as it is here. *)
Definition store_8 (a : list byte) (i : Z) (v : Z) : list byte :=
  if i <? 0 then a else <[Z.to_nat i := byte_of_Z v]> a.

(** ** Helpers of btstack_util.c and libc *)

(** Modelled from the spec: [little_endian_read_32] of btstack_util.c, which
    is not part of the sources; "all multi-byte integers little-endian". *)
Definition little_endian_read_32 (buffer : list byte) (pos : Z) : Z :=
  Z.lor (byte_at buffer pos)
    (Z.lor (Z.shiftl (byte_at buffer (pos + 1)) 8)
       (Z.lor (Z.shiftl (byte_at buffer (pos + 2)) 16)
          (Z.shiftl (byte_at buffer (pos + 3)) 24))).

(** Modelled from the spec: the 16-bit little-endian read, the inverse of
    [little_endian_store_16]; used to observe a frame's opcode and sequence
    number. *)
Definition little_endian_read_16 (buffer : list byte) (pos : Z) : Z :=
  Z.lor (byte_at buffer pos) (Z.shiftl (byte_at buffer (pos + 1)) 8).

(** Modelled from the spec: [little_endian_store_16] of btstack_util.c, which
    is not part of the sources: low byte first. *)
Definition little_endian_store_16 (buffer : list byte) (pos : Z) (value : Z)
  : list byte :=
  let buffer := store_8 buffer pos value in
  store_8 buffer (pos + 1) (Z.shiftr value 8).

(** Modelled from the spec: [little_endian_store_32] of btstack_util.c, which
    is not part of the sources: low byte first. *)
Definition little_endian_store_32 (buffer : list byte) (pos : Z) (value : Z)
  : list byte :=
  let buffer := store_8 buffer pos value in
  let buffer := store_8 buffer (pos + 1) (Z.shiftr value 8) in
  let buffer := store_8 buffer (pos + 2) (Z.shiftr value 16) in
  store_8 buffer (pos + 3) (Z.shiftr value 24).

(** Modelled from the spec: [btstack_min] of btstack_util.c, which is not part
    of the sources: the smaller of two [uint32_t]. *)
Definition btstack_min (a b : Z) : Z := if a <? b then a else b.

(** [memcpy(&dst[pos], src, n)] of libc: the [n] bytes of [src] replace the
    bytes [pos .. pos+n-1] of [dst].  When [src] is shorter than [n] or [dst]
    shorter than [pos + n] the C call is undefined; here whatever part exists
    is copied. *)
Definition memcpy (dst : list byte) (pos : Z) (src : list byte) (n : Z)
  : list byte :=
  take (Z.to_nat pos) dst ++ take (Z.to_nat n) src
    ++ drop (Z.to_nat (pos + n)) dst.

(** Modelled from the spec: [OGF_VENDOR] of hci.h, which is not part of the
    sources; the vendor opcodes 0xFC27 .. 0xFC34 of this file are
    [OPCODE(0x3f, ocf)]. *)
Definition OGF_VENDOR : Z := 0x3f.

Definition OPCODE (ogf ocf : Z) : Z := Z.lor ocf (Z.shiftl ogf 10).

Definition HCI_OPCODE_EM_WRITE_PATCH_START    : Z := 0xFC27.
Definition HCI_OPCODE_EM_WRITE_PATCH_CONTINUE : Z := 0xFC28.
Definition HCI_OPCODE_EM_WRITE_PATCH_ABORT    : Z := 0xFC29.
Definition HCI_OPCODE_EM_CPU_RESET            : Z := 0xFC32.
Definition HCI_OPCODE_EM_PATCH_QUERY          : Z := 0xFC34.

Definition baudrates : list Z :=
  [ 0; 0; 0; 9600; 14400; 19200; 28800; 38400; 57600; 76800;
    115200; 230400; 460800; 921600; 1843200 ].

(** ** CRC-32 *)

Module CRC.

Definition crc32_table : list Z :=
  [ 0x00000000; 0x1db71064; 0x3b6e20c8; 0x26d930ac;
    0x76dc4190; 0x6b6b51f4; 0x4db26158; 0x5005713c;
    0xedb88320; 0xf00f9344; 0xd6d6a3e8; 0xcb61b38c;
    0x9b64c2b0; 0x86d3d2d4; 0xa00ae278; 0xbdbdf21c ].

Definition table_at (i : Z) : Z := nth (Z.to_nat i) crc32_table 0.

(** One turn of the [for] loop body, for the byte [b]. *)
Definition crc32_update (crc32 : Z) (b : Z) : Z :=
  let crc32 :=
    Z.lxor (Z.shiftr crc32 4)
      (table_at (Z.lxor (Z.land crc32 0x0F) (Z.land b 0x0F))) in
  Z.lxor (Z.shiftr crc32 4)
    (table_at (Z.lxor (Z.land crc32 0x0F) (Z.shiftr b 4))).

(** [for (pos = ...; pos < size; pos++)] with [n] turns left. *)
Fixpoint crc32_loop (buf : list byte) (n : nat) (pos : Z) (crc32 : Z) : Z :=
  match n with
  | O => crc32
  | S n' => crc32_loop buf n' (pos + 1) (crc32_update crc32 (byte_at buf pos))
  end.

Definition btstack_crc32 (buf : list byte) (size : Z) : Z :=
  let crc32 := 0xffffffff in
  let crc32 := crc32_loop buf (Z.to_nat size) 0 crc32 in
  u32 (Z.lnot crc32).

(** *** The reference: bit-at-a-time reflected CRC-32

    The textbook algorithm the specification names: the register starts at
    all-ones, every byte is xor-ed into the low end and the register is
    shifted right eight times, xor-ing the polynomial 0xEDB88320 whenever a
    one falls off; the result is complemented. *)

Definition polynomial : Z := 0xEDB88320.

Definition shift_bit (c : Z) : Z :=
  Z.lxor (Z.shiftr c 1) (if Z.testbit c 0 then polynomial else 0).

Definition crc32_reference_byte (c : Z) (b : byte) : Z :=
  Nat.iter 8 shift_bit (Z.lxor c (Z_of_byte b)).

Definition crc32_reference (data : list byte) : Z :=
  Z.lxor (fold_left crc32_reference_byte data 0xFFFFFFFF) 0xFFFFFFFF.

End CRC.

(** ** The baud rate command *)

(** The [for] loop of [chipset_set_baudrate_command] with [n] entries left to
    visit, [i] the loop variable: the pair [(i, found)] at loop exit. *)
Fixpoint baudrate_lookup (baudrate : Z) (n : nat) (i : Z) : Z * Z :=
  match n with
  | O => (i, 0)
  | S n' =>
      if nth (Z.to_nat i) baudrates 0 =? baudrate
      then (i, i)                                (* found = i; break; *)
      else baudrate_lookup baudrate n' (i + 1)
  end.

(** The buffer after the call, and whether [log_error] was called. *)
Definition chipset_set_baudrate_command (baudrate : Z)
    (hci_cmd_buffer : list byte) : list byte * bool :=
  let '(i, found) := baudrate_lookup baudrate (length baudrates) 0 in
  if found =? 0 then (hci_cmd_buffer, true)
  else
    let hci_cmd_buffer :=
      little_endian_store_16 hci_cmd_buffer 0 (OPCODE OGF_VENDOR 0x07) in
    let hci_cmd_buffer := store_8 hci_cmd_buffer 2 0x01 in
    let hci_cmd_buffer := store_8 hci_cmd_buffer 3 i in
    (hci_cmd_buffer, false).

(** ** The patch upload state machine *)

(** Modelled from the spec: [btstack_chipset_result_t] of btstack_chipset.h,
    which is not part of the sources; the two codes this file returns,
    "produce_next_command(...) -> {ValidCommand, Done}". *)
Inductive btstack_chipset_result_t : Set :=
| BTSTACK_CHIPSET_DONE
| BTSTACK_CHIPSET_VALID_COMMAND.

Inductive upload_state_t : Set :=
| UPLOAD_IDLE
| UPLOAD_ACTIVE.

(** The [static] variables of the upload. *)
Record session : Set := Session {
  container_blob_offset : Z;   (* uint32_t *)
  container_end : Z;           (* uint32_t *)
  patch_sequence_number : Z;   (* uint16_t *)
  em_cpu_reset_sent : Z;       (* int *)
  upload_state : upload_state_t
}.

(** [chipset_init]: offset, reset flag and state are reset; [container_end]
    and [patch_sequence_number] keep whatever they held. *)
Definition chipset_init (s : session) : session :=
  {| container_blob_offset := 0;
     container_end := container_end s;
     patch_sequence_number := patch_sequence_number s;
     em_cpu_reset_sent := 0;
     upload_state := UPLOAD_IDLE |}.

Section Upload.

(** [container_blob_data]; [container_blob_size] is its length. *)
Variable container_blob_data : list byte.

Definition container_blob_size : Z := Z.of_nat (length container_blob_data).

Definition chipset_next_command (s : session) (hci_cmd_buffer : list byte)
  : btstack_chipset_result_t * session * list byte :=
  if container_blob_size <=? container_blob_offset s then
    if 0 =? em_cpu_reset_sent s then
      (* send EM CPU Reset *)
      let hci_cmd_buffer :=
        little_endian_store_16 hci_cmd_buffer 0 HCI_OPCODE_EM_CPU_RESET in
      let hci_cmd_buffer := store_8 hci_cmd_buffer 2 0 in
      (BTSTACK_CHIPSET_VALID_COMMAND,
       {| container_blob_offset := container_blob_offset s;
          container_end := container_end s;
          patch_sequence_number := patch_sequence_number s;
          em_cpu_reset_sent := 1;
          upload_state := upload_state s |},
       hci_cmd_buffer)
    else (BTSTACK_CHIPSET_DONE, s, hci_cmd_buffer)
  else
    match upload_state s with
    | UPLOAD_IDLE =>
        (* check for 'em93' tag *)
        let tag :=
          little_endian_read_32 container_blob_data (container_blob_offset s) in
        if negb (0x656d3933 =? tag) then (BTSTACK_CHIPSET_DONE, s, hci_cmd_buffer)
        else
          (* fetch info for current container *)
          let container_end' :=
            u32 (container_blob_offset s
                 + little_endian_read_32 container_blob_data
                     (u32 (container_blob_offset s + 4))) in
          (* start uploading (<= 59 bytes) *)
          let patch_sequence_number' := 1 in
          let bytes_to_upload :=
            u16 (btstack_min 59 (u32 (container_end' - container_blob_offset s))) in
          let src := drop (Z.to_nat (container_blob_offset s)) container_blob_data in
          let crc := CRC.btstack_crc32 src bytes_to_upload in
          (* build command *)
          let hci_cmd_buffer :=
            little_endian_store_16 hci_cmd_buffer 0 HCI_OPCODE_EM_WRITE_PATCH_START in
          let hci_cmd_buffer := store_8 hci_cmd_buffer 2 (5 + bytes_to_upload) in
          let hci_cmd_buffer := store_8 hci_cmd_buffer 3 0 in (* upload to iRAM1 *)
          let hci_cmd_buffer := little_endian_store_32 hci_cmd_buffer 4 crc in
          let hci_cmd_buffer := memcpy hci_cmd_buffer 8 src bytes_to_upload in
          let container_blob_offset' :=
            u32 (container_blob_offset s + bytes_to_upload) in
          let upload_state' :=
            if container_blob_offset' <? container_end'
            then UPLOAD_ACTIVE else upload_state s in
          (BTSTACK_CHIPSET_VALID_COMMAND,
           {| container_blob_offset := container_blob_offset';
              container_end := container_end';
              patch_sequence_number := patch_sequence_number';
              em_cpu_reset_sent := em_cpu_reset_sent s;
              upload_state := upload_state' |},
           hci_cmd_buffer)
    | UPLOAD_ACTIVE =>
        (* upload next segment *)
        let bytes_to_upload :=
          u16 (btstack_min 58 (u32 (container_end s - container_blob_offset s))) in
        let src := drop (Z.to_nat (container_blob_offset s)) container_blob_data in
        let crc := CRC.btstack_crc32 src bytes_to_upload in
        (* build command *)
        let hci_cmd_buffer :=
          little_endian_store_16 hci_cmd_buffer 0 HCI_OPCODE_EM_WRITE_PATCH_CONTINUE in
        let hci_cmd_buffer := store_8 hci_cmd_buffer 2 (6 + bytes_to_upload) in
        let hci_cmd_buffer :=
          little_endian_store_16 hci_cmd_buffer 3 (patch_sequence_number s) in
        let patch_sequence_number' := u16 (patch_sequence_number s + 1) in
        let hci_cmd_buffer := little_endian_store_32 hci_cmd_buffer 5 crc in
        let hci_cmd_buffer := memcpy hci_cmd_buffer 9 src bytes_to_upload in
        let container_blob_offset' :=
          u32 (container_blob_offset s + bytes_to_upload) in
        let upload_state' :=
          if container_end s <=? container_blob_offset'
          then UPLOAD_IDLE else upload_state s in
        (BTSTACK_CHIPSET_VALID_COMMAND,
         {| container_blob_offset := container_blob_offset';
            container_end := container_end s;
            patch_sequence_number := patch_sequence_number';
            em_cpu_reset_sent := em_cpu_reset_sent s;
            upload_state := upload_state' |},
         hci_cmd_buffer)
    end.

(** *** Repeated calls *)

(** What one call leaves behind: the returned code, the session and the
    command buffer. *)
Definition outcome : Type := btstack_chipset_result_t * session * list byte.

Definition result_of (o : outcome) : btstack_chipset_result_t := fst (fst o).
Definition session_of (o : outcome) : session := snd (fst o).
Definition buffer_of (o : outcome) : list byte := snd o.

(** The outcomes of [n] successive calls, the driver's pull loop. *)
Fixpoint run (n : nat) (s : session) (hci_cmd_buffer : list byte)
  : list outcome :=
  match n with
  | O => []
  | S n' =>
      let o := chipset_next_command s hci_cmd_buffer in
      o :: run n' (session_of o) (buffer_of o)
  end.

(** The session and buffer after [n] calls. *)
Fixpoint after (n : nat) (s : session) (hci_cmd_buffer : list byte)
  : session * list byte :=
  match n with
  | O => (s, hci_cmd_buffer)
  | S n' =>
      let o := chipset_next_command s hci_cmd_buffer in
      after n' (session_of o) (buffer_of o)
  end.

End Upload.

(** *** What the controller sees

    A call that returns [BTSTACK_CHIPSET_VALID_COMMAND] leaves one command in
    the buffer: opcode (2 bytes, little-endian), parameter length (1 byte),
    parameters. *)

Inductive event : Set :=
| EvStart (chunk_size : Z)
| EvContinue (sequence_number : Z) (chunk_size : Z)
| EvReset
| EvOther
| EvDone.

Definition frame_opcode (buf : list byte) : Z := little_endian_read_16 buf 0.
Definition frame_length (buf : list byte) : Z := byte_at buf 2.
Definition frame_params (buf : list byte) : list byte :=
  take (Z.to_nat (frame_length buf)) (drop 3 buf).

Definition observe (o : outcome) : event :=
  match result_of o with
  | BTSTACK_CHIPSET_DONE => EvDone
  | BTSTACK_CHIPSET_VALID_COMMAND =>
      let buf := buffer_of o in
      if frame_opcode buf =? HCI_OPCODE_EM_WRITE_PATCH_START
      then EvStart (frame_length buf - 5)
      else if frame_opcode buf =? HCI_OPCODE_EM_WRITE_PATCH_CONTINUE
      then EvContinue (little_endian_read_16 buf 3) (frame_length buf - 6)
      else if frame_opcode buf =? HCI_OPCODE_EM_CPU_RESET
      then EvReset
      else EvOther
  end.

Definition events (blob : list byte) (n : nat) (s : session) (buf : list byte)
  : list event :=
  map observe (run blob n s buf).


(** ** The statements of the specification *)

(** *** Frame layouts (specification, section 6) *)

Definition le16_bytes (v : Z) : list byte :=
  [byte_of_Z v; byte_of_Z (Z.shiftr v 8)].

Definition le32_bytes (v : Z) : list byte :=
  [byte_of_Z v; byte_of_Z (Z.shiftr v 8);
   byte_of_Z (Z.shiftr v 16); byte_of_Z (Z.shiftr v 24)].

Definition chunk_size (chunk : list byte) : Z := Z.of_nat (length chunk).

(** Write-Patch-Start: opcode 0xFC27, length, marker(1) + crc32(4) + data;
    [rest] is what lies behind the frame in the buffer. *)
Definition patch_start_frame (chunk rest : list byte) : list byte :=
  [x27; xfc] ++ [byte_of_Z (5 + chunk_size chunk)]
    ++ [x00] ++ le32_bytes (CRC.crc32_reference chunk) ++ chunk ++ rest.

(** Write-Patch-Continue: opcode 0xFC28, length, seq(2) + crc32(4) + data. *)
Definition patch_continue_frame (seq : Z) (chunk rest : list byte)
  : list byte :=
  [x28; xfc] ++ [byte_of_Z (6 + chunk_size chunk)]
    ++ le16_bytes seq ++ le32_bytes (CRC.crc32_reference chunk) ++ chunk ++ rest.

(** The bytes [pos .. pos+n-1] of the blob. *)
Definition blob_slice (blob : list byte) (pos n : Z) : list byte :=
  take (Z.to_nat n) (drop (Z.to_nat pos) blob).

(** *** Well-formed blobs (specification, sections 3 and 6)

    Consecutive containers, each a 4-byte magic tag, a 4-byte total size
    measured from the start of the container (header included) and the
    payload.  [containers_at blob pos sizes]: from [pos] to the end the blob
    is made of containers of total sizes [sizes]. *)

Definition container_magic : Z := 0x656d3933.

Inductive containers_at (blob : list byte) : Z -> list Z -> Prop :=
| containers_end :
    containers_at blob (container_blob_size blob) []
| containers_next (pos total : Z) (sizes : list Z) :
    0 <= pos ->
    little_endian_read_32 blob pos = container_magic ->
    little_endian_read_32 blob (pos + 4) = total ->
    8 <= total ->
    pos + total <= container_blob_size blob ->
    containers_at blob (pos + total) sizes ->
    containers_at blob pos (total :: sizes).

Definition well_formed (blob : list byte) (sizes : list Z) : Prop :=
  container_blob_size blob < 2 ^ 32 /\ containers_at blob 0 sizes.

(** *** The frames a container gives rise to *)

(** [ceil(max(0, total - 59) / 58)] *)
Definition continue_count (total : Z) : Z := (Z.max 0 (total - 59) + 57) / 58.

(** [k] Continue frames for [remaining] bytes, the sequence numbers as the
    16-bit counter holds them: [seq], [seq + 1], ... modulo 2^16. *)
Fixpoint continue_events (k : nat) (seq remaining : Z) : list event :=
  match k with
  | O => []
  | S k' =>
      EvContinue seq (Z.min 58 remaining)
        :: continue_events k' (u16 (seq + 1)) (remaining - 58)
  end.

(** The same with the numbers [seq], [seq + 1], [seq + 2], ... themselves. *)
Fixpoint numbered_continue_events (k : nat) (seq remaining : Z) : list event :=
  match k with
  | O => []
  | S k' =>
      EvContinue seq (Z.min 58 remaining)
        :: numbered_continue_events k' (seq + 1) (remaining - 58)
  end.

Definition container_events (total : Z) : list event :=
  EvStart (Z.min 59 total)
    :: continue_events (Z.to_nat (continue_count total)) 1 (total - 59).

Definition numbered_container_events (total : Z) : list event :=
  EvStart (Z.min 59 total)
    :: numbered_continue_events (Z.to_nat (continue_count total)) 1 (total - 59).

(** The calls that upload a container: its Start and Continue frames. *)
Definition container_calls (total : Z) : nat :=
  S (Z.to_nat (continue_count total)).

Definition upload_calls (sizes : list Z) : nat :=
  list_sum (map container_calls sizes).

Definition event_chunk_size (e : event) : Z :=
  match e with
  | EvStart n => n
  | EvContinue _ n => n
  | _ => 0
  end.

Definition uploaded_bytes (evs : list event) : Z :=
  fold_right Z.add 0 (map event_chunk_size evs).

Definition is_continue (e : event) : bool :=
  match e with EvContinue _ _ => true | _ => false end.

(** The sentence of the specification on a single-container upload, for the
    events [evs] of the run and the length [P] it is stated for: one Start
    frame of at most 59 bytes, [ceil(max(0, P - 59) / 58)] Continue frames,
    one Reset frame, then Done, the chunk sizes adding up to [P]. *)
Definition single_container_upload (evs : list event) (P : Z) : Prop :=
  exists (start : Z) (continues : list event),
    evs = EvStart start :: continues ++ [EvReset; EvDone]
    /\ start <= 59
    /\ forallb is_continue continues = true
    /\ Z.of_nat (length continues) = continue_count P
    /\ uploaded_bytes (EvStart start :: continues) = P.

(** A container with the given payload, as the blob format lays it out. *)
Definition container (payload : list byte) : list byte :=
  le32_bytes container_magic
    ++ le32_bytes (8 + Z.of_nat (length payload)) ++ payload.

(** *** Quantities of one call *)

(** The chunk size and container end the Start branch computes. *)
Definition start_container_end (blob : list byte) (s : session) : Z :=
  u32 (container_blob_offset s
       + little_endian_read_32 blob (u32 (container_blob_offset s + 4))).

Definition start_chunk_size (blob : list byte) (s : session) : Z :=
  btstack_min 59 (u32 (start_container_end blob s - container_blob_offset s)).

Definition continue_chunk_size (s : session) : Z :=
  btstack_min 58 (u32 (container_end s - container_blob_offset s)).

(** *** The session between two calls *)

(** What holds of the session between two calls: the cursor is at a
    container boundary, or strictly inside the container that ends at
    [container_end]. *)
Inductive between_calls (blob : list byte) (s : session) : Prop :=
| at_boundary (sizes : list Z) :
    upload_state s = UPLOAD_IDLE ->
    0 <= container_blob_offset s <= container_blob_size blob ->
    containers_at blob (container_blob_offset s) sizes ->
    between_calls blob s
| in_container (sizes : list Z) :
    upload_state s = UPLOAD_ACTIVE ->
    0 <= container_blob_offset s < container_end s ->
    container_end s <= container_blob_size blob ->
    containers_at blob (container_end s) sizes ->
    between_calls blob s.

(** *** Concrete inputs *)

(** The upload variables as the C runtime zero-initialises them. *)
Definition zero_session : session := Session 0 0 0 0 UPLOAD_IDLE.

(** A session whose upload has completed: blob consumed, reset sent. *)
Definition finished_session : session := Session 0 0 0 1 UPLOAD_IDLE.

Definition cmd_buffer : list byte := replicate 67 x00.

(** Eight zero bytes: no magic tag at offset 0. *)
Definition corrupt_blob : list byte := replicate 8 x00.

(** One container with a payload of 52 bytes, 60 bytes in all. *)
Definition blob_52 : list byte := container (replicate 52 x00).

(** A header announcing 100 bytes in a blob of 12. *)
Definition overrun_blob : list byte :=
  le32_bytes container_magic ++ le32_bytes 100 ++ replicate 4 x00.

(** One container that needs 65536 Continue frames. *)
Definition long_container_size : Z := 59 + 58 * 65536.

Definition long_blob : list byte :=
  container (replicate (Z.to_nat (long_container_size - 8)) x00).

(** The largest container whose Continue frames the 16-bit counter can
    number without wrapping: 65535 of them. *)
Definition max_numbered_size : Z := 59 + 58 * 65535.

(** ** The address command *)

(** Modelled from the spec: [reverse_bd_addr] of btstack_util.c, which is not
    part of the sources; "reversed byte-order address": the loop
    [dest[len - 1 - i] = src[i]] over the [len = 6] bytes of a [bd_addr_t],
    with [n] turns left; [dest] is [&buffer[pos]]. *)
Fixpoint reverse_bytes (src buffer : list byte) (pos len : Z) (n : nat) (i : Z)
  : list byte :=
  match n with
  | O => buffer
  | S n' =>
      reverse_bytes src
        (store_8 buffer (pos + (len - 1 - i)) (byte_at src i))
        pos len n' (i + 1)
  end.

Definition reverse_bd_addr (src buffer : list byte) (pos : Z) : list byte :=
  reverse_bytes src buffer pos 6 6 0.

Definition chipset_set_bd_addr_command (addr hci_cmd_buffer : list byte)
  : list byte :=
  let hci_cmd_buffer :=
    little_endian_store_16 hci_cmd_buffer 0 (OPCODE OGF_VENDOR 0x02) in
  let hci_cmd_buffer := store_8 hci_cmd_buffer 2 0x06 in
  reverse_bd_addr addr hci_cmd_buffer 3.

(** ** What the controller receives *)

(** The data bytes of the frame a call leaves in the buffer: what follows
    the marker and CRC of a Start frame, or the sequence number and CRC of a
    Continue frame. *)
Definition frame_data (o : outcome) : list byte :=
  match result_of o with
  | BTSTACK_CHIPSET_DONE => []
  | BTSTACK_CHIPSET_VALID_COMMAND =>
      let buf := buffer_of o in
      if frame_opcode buf =? HCI_OPCODE_EM_WRITE_PATCH_START
      then take (Z.to_nat (frame_length buf - 5)) (drop 8 buf)
      else if frame_opcode buf =? HCI_OPCODE_EM_WRITE_PATCH_CONTINUE
      then take (Z.to_nat (frame_length buf - 6)) (drop 9 buf)
      else []
  end.

(** The CRC field of the frame. *)
Definition frame_crc (o : outcome) : option Z :=
  match result_of o with
  | BTSTACK_CHIPSET_DONE => None
  | BTSTACK_CHIPSET_VALID_COMMAND =>
      let buf := buffer_of o in
      if frame_opcode buf =? HCI_OPCODE_EM_WRITE_PATCH_START
      then Some (little_endian_read_32 buf 4)
      else if frame_opcode buf =? HCI_OPCODE_EM_WRITE_PATCH_CONTINUE
      then Some (little_endian_read_32 buf 5)
      else None
  end.

(** The receiver's check: the CRC field, where there is one, is the CRC-32 of
    the data bytes. *)
Definition frame_intact (o : outcome) : bool :=
  match frame_crc o with
  | None => true
  | Some crc =>
      crc =? CRC.btstack_crc32 (frame_data o) (Z.of_nat (length (frame_data o)))
  end.



(** The CRC-32 of any message followed by its own CRC. *)
Definition crc32_residue : Z := 0x2144DF1C.

(** [containers_upto blob pos stop sizes]: from [pos] to [stop] the blob is
    made of containers of total sizes [sizes]; what lies behind [stop] is
    left open. *)
Inductive containers_upto (blob : list byte) : Z -> Z -> list Z -> Prop :=
| upto_here (pos : Z) :
    containers_upto blob pos pos []
| upto_next (pos stop total : Z) (sizes : list Z) :
    0 <= pos ->
    little_endian_read_32 blob pos = container_magic ->
    little_endian_read_32 blob (pos + 4) = total ->
    8 <= total ->
    pos + total <= container_blob_size blob ->
    containers_upto blob (pos + total) stop sizes ->
    containers_upto blob pos stop (total :: sizes).

(** *** Blobs whose containers fit

    [containers_fit blob pos]: the upload can go on from the container
    boundary [pos] without leaving the blob.  Either the blob is consumed, or
    the tag at [pos] is wrong, or the container that starts at [pos] ends
    inside the blob, at a boundary of the same kind (a total size of 0 keeps
    the boundary where it is).  The total size is read as the code reads
    it. *)
Inductive containers_fit (blob : list byte) : Z -> Prop :=
| fit_end (pos : Z) :
    container_blob_size blob <= pos ->
    containers_fit blob pos
| fit_bad_tag (pos : Z) :
    pos < container_blob_size blob ->
    little_endian_read_32 blob pos <> container_magic ->
    containers_fit blob pos
| fit_empty (pos : Z) :
    pos < container_blob_size blob ->
    little_endian_read_32 blob pos = container_magic ->
    little_endian_read_32 blob (u32 (pos + 4)) = 0 ->
    containers_fit blob pos
| fit_next (pos total : Z) :
    pos < container_blob_size blob ->
    little_endian_read_32 blob pos = container_magic ->
    little_endian_read_32 blob (u32 (pos + 4)) = total ->
    pos + total <= container_blob_size blob ->
    containers_fit blob (pos + total) ->
    containers_fit blob pos.

(** The session between two calls on such a blob. *)
Inductive fit_between (blob : list byte) (s : session) : Prop :=
| fit_at_boundary :
    upload_state s = UPLOAD_IDLE ->
    0 <= container_blob_offset s <= container_blob_size blob ->
    containers_fit blob (container_blob_offset s) ->
    fit_between blob s
| fit_in_container :
    upload_state s = UPLOAD_ACTIVE ->
    0 <= container_blob_offset s < container_end s ->
    container_end s <= container_blob_size blob ->
    containers_fit blob (container_end s) ->
    fit_between blob s.

(** The frames of one container: the events of the calls that follow the
    upload of the containers of sizes [before]. *)
Definition container_frames (evs : list event) (before : list Z) (total : Z)
  : list event :=
  take (container_calls total) (drop (upload_calls before) evs).

(** Eight bytes that are no well-formed blob, a header with a total size of
    4, yet hold the one container they announce. *)
Definition short_container_blob : list byte :=
  le32_bytes container_magic ++ le32_bytes 4.

(** A container of 2^32 - 20 bytes followed by a header that announces 100
    bytes: 2^32 - 12 bytes in all. *)
Definition wrap_first_size : Z := 2 ^ 32 - 20.

Definition wrap_blob : list byte :=
  container (replicate (Z.to_nat (wrap_first_size - 8)) x00)
    ++ le32_bytes container_magic ++ le32_bytes 100.

(** * Proofs *)

(** ** Bytes and machine integers *)

Lemma Z_of_byte_range (b : byte) : 0 <= Z_of_byte b < 256.
Proof.
  unfold Z_of_byte. pose proof (Byte.to_N_bounded b). lia.
Qed.

Lemma Z_of_byte_of_Z (z : Z) : Z_of_byte (byte_of_Z z) = u8 z.
Proof.
  unfold byte_of_Z, Z_of_byte.
  assert (Hr : 0 <= u8 z < 256) by (unfold u8; apply Z.mod_pos_bound; lia).
  destruct (Byte.of_N (Z.to_N (u8 z))) as [b|] eqn:E.
  - apply Byte.to_of_N in E. rewrite E. lia.
  - apply Byte.of_N_None_iff in E. lia.
Qed.

Lemma land_lxor_distr_l (a b m : Z) :
  Z.land (Z.lxor a b) m = Z.lxor (Z.land a m) (Z.land b m).
Proof.
  apply Z.bits_inj'. intros i _.
  rewrite !Z.lxor_spec, !Z.land_spec, Z.lxor_spec.
  destruct (Z.testbit a i), (Z.testbit b i), (Z.testbit m i); reflexivity.
Qed.

Lemma lxor_range (n a b : Z) :
  0 <= n -> 0 <= a < 2 ^ n -> 0 <= b < 2 ^ n -> 0 <= Z.lxor a b < 2 ^ n.
Proof.
  intros Hn Ha Hb.
  assert (E : Z.lxor a b = Z.lxor a b mod 2 ^ n).
  { rewrite <- !Z.land_ones by lia.
    rewrite land_lxor_distr_l, !Z.land_ones by lia.
    rewrite !Z.mod_small by lia. reflexivity. }
  rewrite E. apply Z.mod_pos_bound. lia.
Qed.

Lemma shiftr_range (n k a : Z) :
  0 <= k -> 0 <= a < 2 ^ n -> 0 <= Z.shiftr a k < 2 ^ n.
Proof.
  intros Hk Ha. rewrite Z.shiftr_div_pow2 by lia.
  assert (0 < 2 ^ k) by lia. split.
  - apply Z.div_pos; lia.
  - apply Z.le_lt_trans with a; [|lia]. apply Z.div_le_upper_bound; nia.
Qed.

Lemma iter_8_is_4_4 {A : Type} (f : A -> A) (x : A) :
  Nat.iter 8 f x = Nat.iter 4 f (Nat.iter 4 f x).
Proof. reflexivity. Qed.

Lemma fold_left_step {A B : Type} (f : A -> B -> A) (b : B) (l : list B)
    (a : A) :
  fold_left f (b :: l) a = fold_left f l (f a b).
Proof. reflexivity. Qed.

Module CRCProofs.
Import CRC.

(** *** The register update is linear over xor *)

Lemma shift_bit_lxor (a b : Z) :
  shift_bit (Z.lxor a b) = Z.lxor (shift_bit a) (shift_bit b).
Proof.
  unfold shift_bit. rewrite Z.shiftr_lxor, Z.lxor_spec.
  destruct (Z.testbit a 0), (Z.testbit b 0); cbn [xorb];
    apply Z.bits_inj'; intros i Hi; rewrite !Z.lxor_spec;
    rewrite ?Z.bits_0;
    destruct (Z.testbit (Z.shiftr a 1) i), (Z.testbit (Z.shiftr b 1) i),
      (Z.testbit polynomial i); reflexivity.
Qed.

Lemma iter_shift_bit_lxor (k : nat) (a b : Z) :
  Nat.iter k shift_bit (Z.lxor a b)
  = Z.lxor (Nat.iter k shift_bit a) (Nat.iter k shift_bit b).
Proof.
  induction k as [|k IH]; [reflexivity|].
  rewrite !Nat.iter_succ, IH. apply shift_bit_lxor.
Qed.

(** Zero bits at the low end are just shifted out. *)
Lemma iter_shift_bit_low_clear (k : nat) (c : Z) :
  (forall i, 0 <= i < Z.of_nat k -> Z.testbit c i = false) ->
  Nat.iter k shift_bit c = Z.shiftr c (Z.of_nat k).
Proof.
  induction k as [|k IH]; intros Hlow.
  - cbn [Nat.iter]. rewrite Z.shiftr_0_r. reflexivity.
  - rewrite Nat.iter_succ, IH by (intros; apply Hlow; lia).
    unfold shift_bit.
    rewrite Z.shiftr_spec, Z.add_0_l, Hlow, Z.lxor_0_r by lia.
    rewrite Z.shiftr_shiftr by lia. f_equal. lia.
Qed.

(** Every entry of the table is four bit steps of its index. *)
Lemma table_at_spec (n : Z) :
  0 <= n < 16 -> table_at n = Nat.iter 4 shift_bit n.
Proof.
  intros Hn. rewrite <- (Z2Nat.id n) by lia.
  assert (Hk : (Z.to_nat n < 16)%nat) by lia.
  generalize dependent (Z.to_nat n). clear Hn. intros k Hk.
  do 16 (destruct k as [|k]; [vm_compute; reflexivity|]).
  lia.
Qed.

Lemma split_low_nibble (c : Z) :
  c = Z.lxor (Z.ldiff c (Z.ones 4)) (Z.land c (Z.ones 4)).
Proof.
  apply Z.bits_inj'. intros i Hi.
  rewrite Z.lxor_spec, Z.ldiff_spec, Z.land_spec.
  destruct (Z.testbit c i), (Z.testbit (Z.ones 4) i); reflexivity.
Qed.

(** Four bit steps at once: the nibble step of the table-driven code. *)
Lemma nibble_step (c : Z) :
  Nat.iter 4 shift_bit c
  = Z.lxor (Z.shiftr c 4) (table_at (Z.land c 0x0F)).
Proof.
  change 0x0F with (Z.ones 4).
  rewrite (split_low_nibble c) at 1.
  rewrite iter_shift_bit_lxor. f_equal.
  - rewrite iter_shift_bit_low_clear.
    + apply Z.bits_inj'. intros i Hi.
      rewrite !Z.shiftr_spec, Z.ldiff_spec by lia.
      rewrite Z.ones_spec_high by lia. apply andb_true_r.
    + intros i Hi. rewrite Z.ldiff_spec, Z.ones_spec_low by lia.
      apply andb_false_r.
  - symmetry. apply table_at_spec.
    rewrite Z.land_ones by lia. apply Z.mod_pos_bound. lia.
Qed.

Lemma nibble_step_lxor (c x : Z) :
  Nat.iter 4 shift_bit (Z.lxor c x)
  = Z.lxor
      (Z.lxor (Z.shiftr c 4)
         (table_at (Z.lxor (Z.land c 0x0F) (Z.land x 0x0F))))
      (Z.shiftr x 4).
Proof.
  rewrite nibble_step, Z.shiftr_lxor, land_lxor_distr_l.
  rewrite !Z.lxor_assoc. f_equal. apply Z.lxor_comm.
Qed.

(** The loop body is eight bit steps of the register xor the byte. *)
Lemma crc32_update_reference (c : Z) (b : byte) :
  crc32_update c (Z_of_byte b) = crc32_reference_byte c b.
Proof.
  unfold crc32_update, crc32_reference_byte.
  pose proof (Z_of_byte_range b) as Hb.
  set (v := Z_of_byte b) in *.
  assert (H8 : Z.shiftr (Z.shiftr v 4) 4 = 0).
  { rewrite Z.shiftr_shiftr by lia. rewrite Z.shiftr_div_pow2 by lia.
    apply Z.div_small. simpl. lia. }
  assert (H4 : Z.land (Z.shiftr v 4) 0x0F = Z.shiftr v 4).
  { change 0x0F with (Z.ones 4). rewrite Z.land_ones by lia.
    apply Z.mod_small. rewrite Z.shiftr_div_pow2 by lia. split.
    - apply Z.div_pos; lia.
    - apply Z.div_lt_upper_bound; simpl; lia. }
  rewrite iter_8_is_4_4, (nibble_step_lxor c v), nibble_step_lxor.
  rewrite H8, H4, Z.lxor_0_r. reflexivity.
Qed.

Lemma crc32_loop_fold (buf : list byte) (n : nat) (pos : nat) (c : Z) :
  (pos + n <= length buf)%nat ->
  crc32_loop buf n (Z.of_nat pos) c
  = fold_left crc32_reference_byte (take n (drop pos buf)) c.
Proof.
  revert pos c. induction n as [|n IH]; intros pos c Hlen; cbn [crc32_loop].
  - reflexivity.
  - destruct (lookup_lt_is_Some_2 buf pos) as [b Hb]; [lia|].
    rewrite (drop_S _ _ _ Hb). cbn [take]. rewrite fold_left_step.
    replace (Z.of_nat pos + 1) with (Z.of_nat (S pos)) by lia.
    rewrite IH by lia. f_equal.
    unfold byte_at. destruct (Z.ltb_spec (Z.of_nat pos) 0); [lia|].
    rewrite Nat2Z.id, Hb. apply crc32_update_reference.
Qed.

Lemma shift_bit_range (c : Z) :
  0 <= c < 2 ^ 32 -> 0 <= shift_bit c < 2 ^ 32.
Proof.
  intros Hc. unfold shift_bit. apply lxor_range; [lia| |].
  - apply shiftr_range; lia.
  - destruct (Z.testbit c 0); unfold polynomial; lia.
Qed.

Lemma crc32_reference_byte_range (c : Z) (b : byte) :
  0 <= c < 2 ^ 32 -> 0 <= crc32_reference_byte c b < 2 ^ 32.
Proof.
  intros Hc. unfold crc32_reference_byte.
  assert (H0 : 0 <= Z.lxor c (Z_of_byte b) < 2 ^ 32).
  { apply lxor_range; [lia|lia|]. pose proof (Z_of_byte_range b). lia. }
  generalize dependent (Z.lxor c (Z_of_byte b)). intros x Hx.
  do 8 (rewrite Nat.iter_succ; apply shift_bit_range). exact Hx.
Qed.

Lemma fold_reference_range (data : list byte) (c : Z) :
  0 <= c < 2 ^ 32 ->
  0 <= fold_left crc32_reference_byte data c < 2 ^ 32.
Proof.
  revert c. induction data as [|b data IH]; intros c Hc.
  - exact Hc.
  - rewrite fold_left_step. apply IH, crc32_reference_byte_range, Hc.
Qed.

(** The complement of a 32-bit register is the xor with all-ones. *)
Lemma u32_lnot (c : Z) :
  0 <= c < 2 ^ 32 -> u32 (Z.lnot c) = Z.lxor c 0xFFFFFFFF.
Proof.
  intros Hc. unfold u32. change 0xFFFFFFFF with (Z.ones 32).
  rewrite <- Z.land_ones by lia.
  assert (Hhigh : forall i, 0 <= i ->
            Z.testbit c i = Z.testbit c i && Z.testbit (Z.ones 32) i).
  { intros i Hi. rewrite <- Z.land_spec, Z.land_ones, Z.mod_small by lia.
    reflexivity. }
  apply Z.bits_inj'. intros i Hi.
  rewrite Z.land_spec, Z.lxor_spec, Z.lnot_spec, (Hhigh i) by lia.
  destruct (Z.testbit c i), (Z.testbit (Z.ones 32) i); reflexivity.
Qed.

(** The table-driven code computes the bit-at-a-time CRC-32 of the first
    [size] bytes. *)
Lemma btstack_crc32_reference (buf : list byte) (size : Z) :
  0 <= size <= Z.of_nat (length buf) ->
  btstack_crc32 buf size = crc32_reference (take (Z.to_nat size) buf).
Proof.
  intros Hs. unfold btstack_crc32, crc32_reference.
  rewrite (crc32_loop_fold buf (Z.to_nat size) 0) by lia.
  rewrite drop_0. apply u32_lnot, fold_reference_range. lia.
Qed.

Lemma btstack_crc32_take (buf : list byte) (size : Z) :
  0 <= size <= Z.of_nat (length buf) ->
  btstack_crc32 buf size = btstack_crc32 (take (Z.to_nat size) buf) size.
Proof.
  intros Hs. rewrite !btstack_crc32_reference.
  - rewrite take_take. f_equal. f_equal. lia.
  - rewrite length_take. lia.
  - exact Hs.
Qed.

Lemma btstack_crc32_range (buf : list byte) (size : Z) :
  0 <= btstack_crc32 buf size < 2 ^ 32.
Proof. unfold btstack_crc32, u32. apply Z.mod_pos_bound. lia. Qed.

End CRCProofs.

(** ** Little-endian stores and reads *)

Lemma u8_small (z : Z) : 0 <= z < 256 -> u8 z = z.
Proof. intros H. unfold u8. apply Z.mod_small. lia. Qed.

Lemma u16_small (z : Z) : 0 <= z < 2 ^ 16 -> u16 z = z.
Proof. intros H. unfold u16. apply Z.mod_small. lia. Qed.

Lemma u32_small (z : Z) : 0 <= z < 2 ^ 32 -> u32 z = z.
Proof. intros H. unfold u32. apply Z.mod_small. lia. Qed.

Lemma u32_range (z : Z) : 0 <= u32 z < 2 ^ 32.
Proof. unfold u32. apply Z.mod_pos_bound. lia. Qed.

Lemma u16_range (z : Z) : 0 <= u16 z < 2 ^ 16.
Proof. unfold u16. apply Z.mod_pos_bound. lia. Qed.

Lemma u8_testbit (z i : Z) :
  0 <= i -> Z.testbit (u8 z) i = Z.testbit z i && (i <? 8).
Proof.
  intros Hi. unfold u8. rewrite <- Z.land_ones by lia.
  rewrite Z.land_spec, Z.testbit_ones_nonneg by lia. reflexivity.
Qed.

Lemma testbit_above (n z i : Z) :
  0 <= n -> 0 <= z < 2 ^ n -> n <= i -> Z.testbit z i = false.
Proof.
  intros Hn Hz Hi.
  rewrite <- (Z.mod_small z (2 ^ n)) by lia.
  apply Z.mod_pow2_bits_high. lia.
Qed.

(** Reading back the two bytes of a 16-bit store. *)
Lemma read_le16_bytes (v : Z) :
  0 <= v < 2 ^ 16 ->
  Z.lor (u8 v) (Z.shiftl (u8 (Z.shiftr v 8)) 8) = v.
Proof.
  intros Hv. apply Z.bits_inj'. intros i Hi.
  rewrite Z.lor_spec, u8_testbit by lia.
  destruct (Z.ltb_spec i 8) as [H8|H8].
  - rewrite Z.shiftl_spec_low by lia. rewrite andb_true_r, orb_false_r.
    reflexivity.
  - rewrite Z.shiftl_spec, u8_testbit, Z.shiftr_spec by lia.
    replace (i - 8 + 8) with i by lia. rewrite andb_false_r, orb_false_l.
    destruct (Z.ltb_spec (i - 8) 8) as [H16|H16].
    + apply andb_true_r.
    + rewrite andb_false_r. symmetry.
      apply (testbit_above 16); lia.
Qed.

(** Reading back the four bytes of a 32-bit store. *)
Lemma read_le32_bytes (v : Z) :
  0 <= v < 2 ^ 32 ->
  Z.lor (u8 v)
    (Z.lor (Z.shiftl (u8 (Z.shiftr v 8)) 8)
       (Z.lor (Z.shiftl (u8 (Z.shiftr v 16)) 16)
          (Z.shiftl (u8 (Z.shiftr v 24)) 24))) = v.
Proof.
  intros Hv. apply Z.bits_inj'. intros i Hi.
  rewrite !Z.lor_spec, u8_testbit by lia.
  assert (Hbyte : forall k, 0 <= k ->
            Z.testbit (Z.shiftl (u8 (Z.shiftr v k)) k) i
            = Z.testbit v i && (k <=? i) && (i <? k + 8)).
  { intros k Hk. destruct (Z.leb_spec k i) as [Hki|Hki].
    - rewrite Z.shiftl_spec, u8_testbit, Z.shiftr_spec by lia.
      replace (i - k + k) with i by lia. rewrite andb_true_r.
      f_equal. destruct (Z.ltb_spec (i - k) 8), (Z.ltb_spec i (k + 8));
        reflexivity || lia.
    - rewrite Z.shiftl_spec_low by lia. rewrite andb_false_r. reflexivity. }
  rewrite !Hbyte by lia.
  destruct (Z.ltb_spec i 32) as [H32|H32].
  - destruct (Z.testbit v i); cbn [andb orb]; [|reflexivity].
    destruct (Z.ltb_spec i 8), (Z.leb_spec 8 i), (Z.ltb_spec i (8 + 8)),
      (Z.leb_spec 16 i), (Z.ltb_spec i (16 + 8)), (Z.leb_spec 24 i),
      (Z.ltb_spec i (24 + 8)); cbn [andb orb]; reflexivity || lia.
  - rewrite (testbit_above 32 v i) by lia. reflexivity.
Qed.

Lemma read_32_cons4 (b0 b1 b2 b3 : byte) (l : list byte) :
  little_endian_read_32 (b0 :: b1 :: b2 :: b3 :: l) 0
  = Z.lor (Z_of_byte b0)
      (Z.lor (Z.shiftl (Z_of_byte b1) 8)
         (Z.lor (Z.shiftl (Z_of_byte b2) 16) (Z.shiftl (Z_of_byte b3) 24))).
Proof. reflexivity. Qed.

Lemma read_16_cons2 (b0 b1 : byte) (l : list byte) :
  little_endian_read_16 (b0 :: b1 :: l) 0
  = Z.lor (Z_of_byte b0) (Z.shiftl (Z_of_byte b1) 8).
Proof. reflexivity. Qed.

Lemma read_32_le32_bytes (v : Z) (l : list byte) :
  0 <= v < 2 ^ 32 -> little_endian_read_32 (le32_bytes v ++ l) 0 = v.
Proof.
  intros Hv. unfold le32_bytes. cbn [app].
  rewrite read_32_cons4, !Z_of_byte_of_Z. apply read_le32_bytes, Hv.
Qed.

Lemma read_16_le16_bytes (v : Z) (l : list byte) :
  0 <= v < 2 ^ 16 -> little_endian_read_16 (le16_bytes v ++ l) 0 = v.
Proof.
  intros Hv. unfold le16_bytes. cbn [app].
  rewrite read_16_cons2, !Z_of_byte_of_Z. apply read_le16_bytes, Hv.
Qed.

(** Reads at an offset are reads in the suffix. *)
Lemma byte_at_drop (a : list byte) (pos i : Z) :
  0 <= pos -> 0 <= i ->
  byte_at (drop (Z.to_nat pos) a) i = byte_at a (pos + i).
Proof.
  intros Hp Hi. unfold byte_at.
  destruct (Z.ltb_spec i 0), (Z.ltb_spec (pos + i) 0); try lia.
  rewrite lookup_drop. replace (Z.to_nat pos + Z.to_nat i)%nat
    with (Z.to_nat (pos + i)) by lia. reflexivity.
Qed.

Lemma byte_at_take (a : list byte) (n i : Z) :
  0 <= i < n -> byte_at (take (Z.to_nat n) a) i = byte_at a i.
Proof.
  intros Hi. unfold byte_at. destruct (Z.ltb_spec i 0); [lia|].
  rewrite lookup_take_lt by lia. reflexivity.
Qed.

Lemma read_32_blob_slice (blob : list byte) (pos n i : Z) :
  0 <= pos -> 0 <= i -> i + 4 <= n ->
  little_endian_read_32 (blob_slice blob pos n) i
  = little_endian_read_32 blob (pos + i).
Proof.
  intros Hp Hi Hn. unfold little_endian_read_32, blob_slice.
  rewrite !byte_at_take, !byte_at_drop by lia.
  rewrite !Z.add_assoc. reflexivity.
Qed.

(** ** The command buffer after a frame is built *)

Lemma memcpy_app (pre rest src : list byte) (pos n : Z) :
  Z.of_nat (length pre) = pos -> 0 <= n ->
  memcpy (pre ++ rest) pos src n
  = pre ++ take (Z.to_nat n) src ++ drop (Z.to_nat n) rest.
Proof.
  intros Hpre Hn. unfold memcpy.
  rewrite take_app_length' by lia. f_equal. f_equal.
  replace (Z.to_nat (pos + n)) with (length pre + Z.to_nat n)%nat by lia.
  rewrite <- drop_drop, drop_app_length. reflexivity.
Qed.

Lemma start_header_stores (b0 b1 b2 b3 b4 b5 b6 b7 : byte) (rest : list byte)
    (opcode len marker crc : Z) :
  little_endian_store_32
    (store_8
       (store_8
          (little_endian_store_16
             (b0 :: b1 :: b2 :: b3 :: b4 :: b5 :: b6 :: b7 :: rest) 0 opcode)
          2 len) 3 marker) 4 crc
  = (le16_bytes opcode ++ [byte_of_Z len] ++ [byte_of_Z marker]
       ++ le32_bytes crc) ++ rest.
Proof. reflexivity. Qed.

Lemma continue_header_stores (b0 b1 b2 b3 b4 b5 b6 b7 b8 : byte)
    (rest : list byte) (opcode len seq crc : Z) :
  little_endian_store_32
    (little_endian_store_16
       (store_8
          (little_endian_store_16
             (b0 :: b1 :: b2 :: b3 :: b4 :: b5 :: b6 :: b7 :: b8 :: rest)
             0 opcode)
          2 len) 3 seq) 5 crc
  = (le16_bytes opcode ++ [byte_of_Z len] ++ le16_bytes seq
       ++ le32_bytes crc) ++ rest.
Proof. reflexivity. Qed.

Lemma reset_stores (b0 b1 b2 : byte) (rest : list byte) (opcode len : Z) :
  store_8 (little_endian_store_16 (b0 :: b1 :: b2 :: rest) 0 opcode) 2 len
  = le16_bytes opcode ++ [byte_of_Z len] ++ rest.
Proof. reflexivity. Qed.

(** ** One call of [chipset_next_command] *)

Lemma btstack_min_spec (a b : Z) : btstack_min a b = Z.min a b.
Proof. unfold btstack_min. destruct (Z.ltb_spec a b); lia. Qed.

Lemma blob_slice_length (blob : list byte) (pos n : Z) :
  0 <= pos -> 0 <= n -> pos + n <= container_blob_size blob ->
  chunk_size (blob_slice blob pos n) = n.
Proof.
  intros Hp Hn Hin. unfold chunk_size, blob_slice, container_blob_size in *.
  rewrite length_take, length_drop. lia.
Qed.

Lemma blob_slice_crc (blob : list byte) (pos n : Z) :
  0 <= pos -> 0 <= n -> pos + n <= container_blob_size blob ->
  CRC.btstack_crc32 (drop (Z.to_nat pos) blob) n
  = CRC.crc32_reference (blob_slice blob pos n).
Proof.
  intros Hp Hn Hin. unfold blob_slice, container_blob_size in *.
  apply CRCProofs.btstack_crc32_reference. rewrite length_drop. lia.
Qed.

Ltac buffer_cons buf Hlen b :=
  destruct buf as [|b buf];
  [cbn [length] in Hlen; lia | cbn [length] in Hlen].

Lemma start_chunk_size_range (blob : list byte) (s : session) :
  0 <= start_chunk_size blob s <= 59.
Proof.
  unfold start_chunk_size. rewrite btstack_min_spec.
  pose proof (u32_range (start_container_end blob s - container_blob_offset s)).
  lia.
Qed.

Lemma continue_chunk_size_range (s : session) :
  0 <= continue_chunk_size s <= 58.
Proof.
  unfold continue_chunk_size. rewrite btstack_min_spec.
  pose proof (u32_range (container_end s - container_blob_offset s)). lia.
Qed.

(** The Start branch: a container begins at the cursor. *)
Lemma next_command_start (blob : list byte) (s : session) (buf : list byte) :
  let o := container_blob_offset s in
  let n := start_chunk_size blob s in
  0 <= o < container_blob_size blob ->
  upload_state s = UPLOAD_IDLE ->
  little_endian_read_32 blob o = container_magic ->
  o + n <= container_blob_size blob ->
  8 + n <= Z.of_nat (length buf) ->
  chipset_next_command blob s buf
  = (BTSTACK_CHIPSET_VALID_COMMAND,
     {| container_blob_offset := u32 (o + n);
        container_end := start_container_end blob s;
        patch_sequence_number := 1;
        em_cpu_reset_sent := em_cpu_reset_sent s;
        upload_state :=
          if u32 (o + n) <? start_container_end blob s
          then UPLOAD_ACTIVE else UPLOAD_IDLE |},
     patch_start_frame (blob_slice blob o n) (drop (Z.to_nat (8 + n)) buf)).
Proof.
  intros o n Ho Hst Htag Hin Hbuf.
  pose proof (start_chunk_size_range blob s) as Hn. fold n in Hn.
  unfold chipset_next_command.
  rewrite (proj2 (Z.leb_gt _ _)) by (fold o; lia).
  rewrite Hst. fold o. rewrite Htag. cbn [negb Z.eqb container_magic Pos.eqb].
  cbv zeta.
  change (u32 (o + little_endian_read_32 blob (u32 (o + 4))))
    with (start_container_end blob s).
  change (btstack_min 59 (u32 (start_container_end blob s - o))) with n.
  rewrite (u16_small n) by lia.
  f_equal.
  do 8 (let b := fresh "b" in buffer_cons buf Hbuf b).
  rewrite start_header_stores.
  rewrite memcpy_app by (cbn [length app le16_bytes le32_bytes]; lia).
  replace (Z.to_nat (8 + n)) with (8 + Z.to_nat n)%nat by lia.
  cbn [drop Nat.add].
  unfold patch_start_frame.
  rewrite blob_slice_length, blob_slice_crc by lia.
  unfold blob_slice. rewrite <- !app_assoc. reflexivity.
Qed.

(** The Continue branch: the next segment of the current container. *)
Lemma next_command_continue (blob : list byte) (s : session)
    (buf : list byte) :
  let o := container_blob_offset s in
  let n := continue_chunk_size s in
  0 <= o < container_blob_size blob ->
  upload_state s = UPLOAD_ACTIVE ->
  o + n <= container_blob_size blob ->
  9 + n <= Z.of_nat (length buf) ->
  chipset_next_command blob s buf
  = (BTSTACK_CHIPSET_VALID_COMMAND,
     {| container_blob_offset := u32 (o + n);
        container_end := container_end s;
        patch_sequence_number := u16 (patch_sequence_number s + 1);
        em_cpu_reset_sent := em_cpu_reset_sent s;
        upload_state :=
          if container_end s <=? u32 (o + n)
          then UPLOAD_IDLE else UPLOAD_ACTIVE |},
     patch_continue_frame (patch_sequence_number s) (blob_slice blob o n)
       (drop (Z.to_nat (9 + n)) buf)).
Proof.
  intros o n Ho Hst Hin Hbuf.
  pose proof (continue_chunk_size_range s) as Hn. fold n in Hn.
  unfold chipset_next_command.
  rewrite (proj2 (Z.leb_gt _ _)) by (fold o; lia).
  rewrite Hst. fold o. cbv zeta.
  change (btstack_min 58 (u32 (container_end s - o))) with n.
  rewrite (u16_small n) by lia.
  f_equal.
  do 9 (let b := fresh "b" in buffer_cons buf Hbuf b).
  rewrite continue_header_stores.
  rewrite memcpy_app by (cbn [length app le16_bytes le32_bytes]; lia).
  replace (Z.to_nat (9 + n)) with (9 + Z.to_nat n)%nat by lia.
  cbn [drop Nat.add].
  unfold patch_continue_frame.
  rewrite blob_slice_length, blob_slice_crc by lia.
  unfold blob_slice. rewrite <- !app_assoc. reflexivity.
Qed.

(** The Reset branch: the blob is consumed, the reset not yet sent. *)
Lemma next_command_reset (blob : list byte) (s : session) (buf : list byte) :
  container_blob_size blob <= container_blob_offset s ->
  em_cpu_reset_sent s = 0 ->
  3 <= Z.of_nat (length buf) ->
  chipset_next_command blob s buf
  = (BTSTACK_CHIPSET_VALID_COMMAND,
     {| container_blob_offset := container_blob_offset s;
        container_end := container_end s;
        patch_sequence_number := patch_sequence_number s;
        em_cpu_reset_sent := 1;
        upload_state := upload_state s |},
     [x32; xfc; x00] ++ drop 3 buf).
Proof.
  intros Ho Hr Hbuf. unfold chipset_next_command.
  rewrite (proj2 (Z.leb_le _ _)) by lia. rewrite Hr. cbn [Z.eqb].
  f_equal. do 3 (let b := fresh "b" in buffer_cons buf Hbuf b).
  rewrite reset_stores. reflexivity.
Qed.

(** The Done branch: the blob is consumed and the reset was sent. *)
Lemma next_command_done (blob : list byte) (s : session) (buf : list byte) :
  container_blob_size blob <= container_blob_offset s ->
  em_cpu_reset_sent s <> 0 ->
  chipset_next_command blob s buf = (BTSTACK_CHIPSET_DONE, s, buf).
Proof.
  intros Ho Hr. unfold chipset_next_command.
  rewrite (proj2 (Z.leb_le _ _)) by lia.
  destruct (Z.eqb_spec 0 (em_cpu_reset_sent s)); [congruence|reflexivity].
Qed.

(** The tag check fails. *)
Lemma next_command_bad_tag (blob : list byte) (s : session)
    (buf : list byte) :
  container_blob_offset s < container_blob_size blob ->
  upload_state s = UPLOAD_IDLE ->
  little_endian_read_32 blob (container_blob_offset s) <> container_magic ->
  chipset_next_command blob s buf = (BTSTACK_CHIPSET_DONE, s, buf).
Proof.
  intros Ho Hst Htag. unfold chipset_next_command.
  rewrite (proj2 (Z.leb_gt _ _)) by lia. rewrite Hst.
  destruct (Z.eqb_spec 0x656d3933
              (little_endian_read_32 blob (container_blob_offset s)))
    as [E|E]; [|reflexivity].
  exfalso. apply Htag. symmetry. exact E.
Qed.

(** A call that returns [BTSTACK_CHIPSET_DONE] has changed nothing. *)
Lemma next_command_done_unchanged (blob : list byte) (s : session)
    (buf : list byte) :
  result_of (chipset_next_command blob s buf) = BTSTACK_CHIPSET_DONE ->
  chipset_next_command blob s buf = (BTSTACK_CHIPSET_DONE, s, buf).
Proof.
  unfold chipset_next_command.
  destruct (container_blob_size blob <=? container_blob_offset s).
  - destruct (0 =? em_cpu_reset_sent s); [discriminate|reflexivity].
  - destruct (upload_state s); [|discriminate].
    destruct (negb _); [reflexivity|discriminate].
Qed.

(** ** What the frames look like from outside *)

Lemma observe_start (s : session) (chunk rest : list byte) :
  chunk_size chunk <= 59 ->
  observe (BTSTACK_CHIPSET_VALID_COMMAND, s, patch_start_frame chunk rest)
  = EvStart (chunk_size chunk).
Proof.
  intros Hn. unfold observe, result_of, buffer_of. cbn [fst snd].
  assert (Hlen : frame_length (patch_start_frame chunk rest)
                 = 5 + chunk_size chunk).
  { unfold patch_start_frame, frame_length. cbn [app].
    change (byte_at (x27 :: xfc :: byte_of_Z (5 + chunk_size chunk) :: ?l) 2)
      with (Z_of_byte (byte_of_Z (5 + chunk_size chunk))).
    rewrite Z_of_byte_of_Z. apply u8_small. unfold chunk_size in *. lia. }
  rewrite Hlen.
  change (frame_opcode (patch_start_frame chunk rest)) with 0xFC27.
  cbn [Z.eqb HCI_OPCODE_EM_WRITE_PATCH_START Pos.eqb]. f_equal. lia.
Qed.

Lemma observe_continue (s : session) (seq : Z) (chunk rest : list byte) :
  0 <= seq < 2 ^ 16 ->
  chunk_size chunk <= 58 ->
  observe (BTSTACK_CHIPSET_VALID_COMMAND, s,
           patch_continue_frame seq chunk rest)
  = EvContinue seq (chunk_size chunk).
Proof.
  intros Hq Hn. unfold observe, result_of, buffer_of. cbn [fst snd].
  assert (Hlen : frame_length (patch_continue_frame seq chunk rest)
                 = 6 + chunk_size chunk).
  { unfold patch_continue_frame, frame_length. cbn [app].
    change (byte_at (x28 :: xfc :: byte_of_Z (6 + chunk_size chunk) :: ?l) 2)
      with (Z_of_byte (byte_of_Z (6 + chunk_size chunk))).
    rewrite Z_of_byte_of_Z. apply u8_small. unfold chunk_size in *. lia. }
  assert (Hseq : little_endian_read_16 (patch_continue_frame seq chunk rest) 3
                 = seq).
  { unfold patch_continue_frame, le16_bytes. cbn [app].
    change (little_endian_read_16
              (x28 :: xfc :: ?b2 :: byte_of_Z seq
                 :: byte_of_Z (Z.shiftr seq 8) :: ?l) 3)
      with (Z.lor (Z_of_byte (byte_of_Z seq))
              (Z.shiftl (Z_of_byte (byte_of_Z (Z.shiftr seq 8))) 8)).
    rewrite !Z_of_byte_of_Z. apply read_le16_bytes, Hq. }
  rewrite Hlen, Hseq.
  change (frame_opcode (patch_continue_frame seq chunk rest)) with 0xFC28.
  cbn [Z.eqb HCI_OPCODE_EM_WRITE_PATCH_START
         HCI_OPCODE_EM_WRITE_PATCH_CONTINUE Pos.eqb].
  f_equal. lia.
Qed.

Lemma observe_reset (s : session) (rest : list byte) :
  observe (BTSTACK_CHIPSET_VALID_COMMAND, s, [x32; xfc; x00] ++ rest)
  = EvReset.
Proof. reflexivity. Qed.

Lemma observe_done (s : session) (buf : list byte) :
  observe (BTSTACK_CHIPSET_DONE, s, buf) = EvDone.
Proof. reflexivity. Qed.

(** ** Calls on a well-formed blob *)

Lemma patch_start_frame_length (chunk buf : list byte) (n : Z) :
  chunk_size chunk = n ->
  8 + n <= Z.of_nat (length buf) ->
  length (patch_start_frame chunk (drop (Z.to_nat (8 + n)) buf)) = length buf.
Proof.
  intros <- H. unfold patch_start_frame, chunk_size in *.
  rewrite !length_app, length_drop. cbn [length le32_bytes]. lia.
Qed.

Lemma patch_continue_frame_length (seq : Z) (chunk buf : list byte) (n : Z) :
  chunk_size chunk = n ->
  9 + n <= Z.of_nat (length buf) ->
  length (patch_continue_frame seq chunk (drop (Z.to_nat (9 + n)) buf))
  = length buf.
Proof.
  intros <- H. unfold patch_continue_frame, chunk_size in *.
  rewrite !length_app, length_drop. cbn [length le32_bytes le16_bytes]. lia.
Qed.

Section WellFormed.

Variable blob : list byte.
Hypothesis blob_size_u32 : container_blob_size blob < 2 ^ 32.

Lemma step_start (s : session) (buf : list byte) (total : Z) :
  upload_state s = UPLOAD_IDLE ->
  0 <= container_blob_offset s ->
  little_endian_read_32 blob (container_blob_offset s) = container_magic ->
  little_endian_read_32 blob (container_blob_offset s + 4) = total ->
  8 <= total ->
  container_blob_offset s + total <= container_blob_size blob ->
  67 <= Z.of_nat (length buf) ->
  exists buf',
    chipset_next_command blob s buf
    = (BTSTACK_CHIPSET_VALID_COMMAND,
       {| container_blob_offset := container_blob_offset s + Z.min 59 total;
          container_end := container_blob_offset s + total;
          patch_sequence_number := 1;
          em_cpu_reset_sent := em_cpu_reset_sent s;
          upload_state := if 59 <? total then UPLOAD_ACTIVE else UPLOAD_IDLE |},
       buf')
    /\ length buf' = length buf
    /\ observe (chipset_next_command blob s buf) = EvStart (Z.min 59 total).
Proof.
  intros Hst Ho Htag Htotal H8 Hfit Hbuf.
  set (o := container_blob_offset s) in *.
  assert (He : start_container_end blob s = o + total).
  { unfold start_container_end. fold o.
    rewrite (u32_small (o + 4)) by lia. rewrite Htotal. apply u32_small. lia. }
  assert (Hn : start_chunk_size blob s = Z.min 59 total).
  { unfold start_chunk_size. rewrite He. fold o. rewrite btstack_min_spec.
    replace (o + total - o) with total by lia.
    rewrite u32_small by lia. reflexivity. }
  pose proof (next_command_start blob s buf) as Hstep. cbv zeta in Hstep.
  fold o in Hstep. rewrite Hn, He in Hstep.
  specialize (Hstep ltac:(lia) Hst Htag ltac:(lia) ltac:(lia)).
  rewrite (u32_small (o + Z.min 59 total)) in Hstep by lia.
  assert (Hsz : chunk_size (blob_slice blob o (Z.min 59 total))
                = Z.min 59 total) by (apply blob_slice_length; lia).
  eexists. split; [|split].
  - rewrite Hstep. f_equal. f_equal. f_equal.
    destruct (Z.ltb_spec (o + Z.min 59 total) (o + total)),
      (Z.ltb_spec 59 total); reflexivity || lia.
  - apply patch_start_frame_length; [exact Hsz|lia].
  - rewrite Hstep, observe_start; rewrite Hsz; [reflexivity|lia].
Qed.

Lemma step_continue (s : session) (buf : list byte) :
  upload_state s = UPLOAD_ACTIVE ->
  0 <= container_blob_offset s < container_end s ->
  container_end s <= container_blob_size blob ->
  0 <= patch_sequence_number s < 2 ^ 16 ->
  67 <= Z.of_nat (length buf) ->
  let n := Z.min 58 (container_end s - container_blob_offset s) in
  exists buf',
    chipset_next_command blob s buf
    = (BTSTACK_CHIPSET_VALID_COMMAND,
       {| container_blob_offset := container_blob_offset s + n;
          container_end := container_end s;
          patch_sequence_number := u16 (patch_sequence_number s + 1);
          em_cpu_reset_sent := em_cpu_reset_sent s;
          upload_state :=
            if container_end s - container_blob_offset s <=? 58
            then UPLOAD_IDLE else UPLOAD_ACTIVE |},
       buf')
    /\ length buf' = length buf
    /\ observe (chipset_next_command blob s buf)
       = EvContinue (patch_sequence_number s) n.
Proof.
  intros Hst Ho He Hq Hbuf n.
  set (o := container_blob_offset s) in *. set (e := container_end s) in *.
  assert (Hn : continue_chunk_size s = n).
  { unfold continue_chunk_size. fold o e. rewrite btstack_min_spec.
    rewrite u32_small by lia. reflexivity. }
  pose proof (next_command_continue blob s buf) as Hstep. cbv zeta in Hstep.
  fold o e in Hstep. rewrite Hn in Hstep.
  specialize (Hstep ltac:(lia) Hst ltac:(lia) ltac:(lia)).
  rewrite (u32_small (o + n)) in Hstep by lia.
  assert (Hsz : chunk_size (blob_slice blob o n) = n)
    by (apply blob_slice_length; lia).
  eexists. split; [|split].
  - rewrite Hstep. f_equal. f_equal. f_equal.
    destruct (Z.leb_spec e (o + n)), (Z.leb_spec (e - o) 58);
      reflexivity || lia.
  - apply patch_continue_frame_length; [exact Hsz|lia].
  - rewrite Hstep, observe_continue; rewrite ?Hsz; [reflexivity|lia|lia].
Qed.

End WellFormed.

(** ** Sequences of calls *)

Lemma run_app (blob : list byte) (n m : nat) (s : session) (buf : list byte) :
  run blob (n + m) s buf
  = run blob n s buf
      ++ run blob m (fst (after blob n s buf)) (snd (after blob n s buf)).
Proof.
  revert s buf. induction n as [|n IH]; intros s buf; cbn [run after Nat.add].
  - reflexivity.
  - rewrite IH. reflexivity.
Qed.

Lemma after_app (blob : list byte) (n m : nat) (s : session)
    (buf : list byte) :
  after blob (n + m) s buf
  = after blob m (fst (after blob n s buf)) (snd (after blob n s buf)).
Proof.
  revert s buf. induction n as [|n IH]; intros s buf; cbn [after Nat.add].
  - reflexivity.
  - apply IH.
Qed.

Lemma after_S_last (blob : list byte) (n : nat) (s : session)
    (buf : list byte) :
  after blob (S n) s buf
  = (let o := chipset_next_command blob (fst (after blob n s buf))
                (snd (after blob n s buf)) in
     (session_of o, buffer_of o)).
Proof.
  replace (S n) with (n + 1)%nat by lia. rewrite after_app. reflexivity.
Qed.

Lemma events_app (blob : list byte) (n m : nat) (s : session)
    (buf : list byte) :
  events blob (n + m) s buf
  = events blob n s buf
      ++ events blob m (fst (after blob n s buf)) (snd (after blob n s buf)).
Proof. unfold events. rewrite run_app, map_app. reflexivity. Qed.

Section Runs.

Variable blob : list byte.
Hypothesis blob_size_u32 : container_blob_size blob < 2 ^ 32.

(** The Continue frames of a container, from anywhere inside it. *)
Lemma run_continue (k : nat) :
  forall (s : session) (buf : list byte),
    upload_state s = UPLOAD_ACTIVE ->
    0 <= container_blob_offset s < container_end s ->
    container_end s <= container_blob_size blob ->
    0 <= patch_sequence_number s < 2 ^ 16 ->
    Z.of_nat k = (container_end s - container_blob_offset s + 57) / 58 ->
    67 <= Z.of_nat (length buf) ->
    events blob k s buf
    = continue_events k (patch_sequence_number s)
        (container_end s - container_blob_offset s)
    /\ container_blob_offset (fst (after blob k s buf)) = container_end s
    /\ upload_state (fst (after blob k s buf)) = UPLOAD_IDLE
    /\ em_cpu_reset_sent (fst (after blob k s buf)) = em_cpu_reset_sent s
    /\ length (snd (after blob k s buf)) = length buf.
Proof.
  induction k as [|k IH]; intros s buf Hst Ho He Hq Hk Hbuf.
  - exfalso. Z.div_mod_to_equations. lia.
  - destruct (step_continue blob blob_size_u32 s buf Hst Ho He Hq Hbuf)
      as (buf' & Hstep & Hlen & Hobs).
    unfold events in *. cbn [run after map continue_events].
    rewrite Hobs. rewrite Hstep. unfold session_of, buffer_of. cbn [fst snd].
    destruct (Z.leb_spec (container_end s - container_blob_offset s) 58)
      as [Hlast|Hmore].
    + assert (k = 0%nat) by (Z.div_mod_to_equations; lia). subst k. cbn [run after map continue_events].
      cbn [fst snd container_blob_offset upload_state em_cpu_reset_sent].
      repeat split; first [lia | congruence].
    + match goal with
      | |- context [run blob k ?s1 buf'] =>
          destruct (IH s1 buf') as (Hev & Hoff & Hstate & Hreset & Hlen');
          cbn [container_blob_offset container_end upload_state
                 patch_sequence_number em_cpu_reset_sent];
          try lia; try reflexivity
      end.
      * apply u16_range.
      * Z.div_mod_to_equations. lia.
      * cbn [container_blob_offset container_end upload_state
               patch_sequence_number em_cpu_reset_sent] in *.
        rewrite Hev. repeat split; try congruence; try lia.
        f_equal. f_equal; lia.
Qed.

(** A whole container: the Start frame and its Continue frames. *)
Lemma run_container (s : session) (buf : list byte) (total : Z) :
  upload_state s = UPLOAD_IDLE ->
  0 <= container_blob_offset s ->
  little_endian_read_32 blob (container_blob_offset s) = container_magic ->
  little_endian_read_32 blob (container_blob_offset s + 4) = total ->
  8 <= total ->
  container_blob_offset s + total <= container_blob_size blob ->
  67 <= Z.of_nat (length buf) ->
  let k := container_calls total in
  events blob k s buf = container_events total
  /\ container_blob_offset (fst (after blob k s buf))
     = container_blob_offset s + total
  /\ upload_state (fst (after blob k s buf)) = UPLOAD_IDLE
  /\ em_cpu_reset_sent (fst (after blob k s buf)) = em_cpu_reset_sent s
  /\ length (snd (after blob k s buf)) = length buf.
Proof.
  intros Hst Ho Htag Htotal H8 Hfit Hbuf k.
  destruct (step_start blob blob_size_u32 s buf total
              Hst Ho Htag Htotal H8 Hfit Hbuf) as (buf' & Hstep & Hlen & Hobs).
  unfold k, container_calls, container_events, events in *.
  cbn [run after map]. rewrite Hobs, Hstep.
  unfold session_of, buffer_of. cbn [fst snd].
  destruct (Z.ltb_spec 59 total) as [Hmore|Hone].
  - match goal with
    | |- context [run blob ?k ?s1 buf'] =>
        destruct (run_continue k s1 buf') as (Hev & Hoff & Hstate & Hreset & Hlen');
        cbn [container_blob_offset container_end upload_state
               patch_sequence_number em_cpu_reset_sent];
        try lia; try reflexivity
    end.
    + unfold continue_count. Z.div_mod_to_equations. lia.
    + cbn [container_blob_offset container_end upload_state
             patch_sequence_number em_cpu_reset_sent] in *.
      unfold events in Hev.
      rewrite Hev. repeat split; try congruence; try lia.
      f_equal. f_equal. lia.
  - assert (Hk0 : Z.to_nat (continue_count total) = 0%nat)
      by (unfold continue_count; Z.div_mod_to_equations; lia).
    rewrite Hk0. cbn [run after map continue_events fst snd
                        container_blob_offset upload_state em_cpu_reset_sent].
    repeat split; first [lia | congruence].
Qed.

End Runs.

(** Once Done, always Done, with nothing changed. *)
Lemma run_done (blob : list byte) (m : nat) (s : session) (buf : list byte) :
  container_blob_size blob <= container_blob_offset s ->
  em_cpu_reset_sent s <> 0 ->
  run blob m s buf = replicate m (BTSTACK_CHIPSET_DONE, s, buf)
  /\ after blob m s buf = (s, buf).
Proof.
  intros Ho Hr. induction m as [|m [IHrun IHafter]]; cbn [run after replicate].
  - split; reflexivity.
  - rewrite (next_command_done blob s buf Ho Hr).
    unfold session_of, buffer_of. cbn [fst snd].
    rewrite IHrun, IHafter. split; reflexivity.
Qed.

Lemma events_done (blob : list byte) (m : nat) (s : session)
    (buf : list byte) :
  container_blob_size blob <= container_blob_offset s ->
  em_cpu_reset_sent s <> 0 ->
  events blob m s buf = replicate m EvDone.
Proof.
  intros Ho Hr. unfold events.
  rewrite (proj1 (run_done blob m s buf Ho Hr)).
  induction m as [|m IH]; cbn [replicate map]; [reflexivity|].
  rewrite IH. reflexivity.
Qed.

(** The Reset frame and what follows it. *)
Lemma events_reset (blob : list byte) (m : nat) (s : session)
    (buf : list byte) :
  container_blob_size blob <= container_blob_offset s ->
  em_cpu_reset_sent s = 0 ->
  3 <= Z.of_nat (length buf) ->
  events blob (S m) s buf = EvReset :: replicate m EvDone.
Proof.
  intros Ho Hr Hbuf. unfold events. cbn [run map].
  rewrite (next_command_reset blob s buf Ho Hr Hbuf).
  unfold session_of, buffer_of. cbn [fst snd]. f_equal.
  apply events_done; cbn [container_blob_offset em_cpu_reset_sent]; lia.
Qed.

(** The whole upload, from a container boundary to Done. *)
Lemma events_containers (blob : list byte) (pos : Z) (sizes : list Z) :
  container_blob_size blob < 2 ^ 32 ->
  containers_at blob pos sizes ->
  forall (s : session) (buf : list byte) (m : nat),
    upload_state s = UPLOAD_IDLE ->
    container_blob_offset s = pos ->
    em_cpu_reset_sent s = 0 ->
    67 <= Z.of_nat (length buf) ->
    events blob (upload_calls sizes + S m) s buf
    = concat (map container_events sizes) ++ EvReset :: replicate m EvDone.
Proof.
  intros Hsize Hwf.
  induction Hwf as [|pos total sizes Hpos Htag Htotal H8 Hfit Hwf IH];
    intros s buf m Hst Ho Hr Hbuf.
  - cbn [upload_calls map list_sum concat Nat.add app].
    apply events_reset; lia.
  - subst pos.
    destruct (run_container blob Hsize s buf total
                Hst Hpos Htag Htotal H8 Hfit Hbuf)
      as (Hev & Hoff & Hstate & Hreset & Hlen).
    change (upload_calls (total :: sizes))
      with (container_calls total + upload_calls sizes)%nat.
    cbn [map concat].
    rewrite <- Nat.add_assoc, events_app, Hev, <- app_assoc. f_equal.
    apply IH; [exact Hstate|exact Hoff|congruence|lia].
Qed.

(** ** The cursor on a well-formed blob *)

(** The session a call leaves does not depend on the command buffer. *)
Lemma session_of_next_command_buffer (blob : list byte) (s : session)
    (buf buf' : list byte) :
  session_of (chipset_next_command blob s buf)
  = session_of (chipset_next_command blob s buf').
Proof.
  unfold chipset_next_command.
  destruct (container_blob_size blob <=? container_blob_offset s).
  - destruct (0 =? em_cpu_reset_sent s); reflexivity.
  - destruct (upload_state s); [destruct (negb _)|]; reflexivity.
Qed.

Lemma between_calls_step (blob : list byte) (s : session) (buf : list byte) :
  container_blob_size blob < 2 ^ 32 ->
  between_calls blob s ->
  let s' := session_of (chipset_next_command blob s buf) in
  between_calls blob s'
  /\ container_blob_offset s <= container_blob_offset s'
     <= container_blob_size blob.
Proof.
  intros Hsize Hinv s'. subst s'.
  rewrite (session_of_next_command_buffer blob s buf (replicate 67 x00)).
  destruct Hinv as [sizes Hst Ho Hwf|sizes Hst Ho He Hwf].
  - inversion Hwf as [Hend|pos total sizes' Hpos Htag Htotal H8 Hfit Hwf' Epos].
    + (* at the end of the blob: Reset or Done *)
      destruct (Z.eq_dec (em_cpu_reset_sent s) 0) as [Hr|Hr].
      * rewrite next_command_reset by (cbn; lia).
        unfold session_of. cbn [fst snd container_blob_offset]. split; [|lia].
        apply at_boundary with sizes; cbn [upload_state container_blob_offset];
          assumption.
      * rewrite next_command_done by (assumption || lia).
        unfold session_of. cbn [fst snd]. split; [|lia].
        apply at_boundary with sizes; assumption.
    + (* a container begins here *)
      destruct (step_start blob Hsize s (replicate 67 x00) total)
        as (buf' & Hstep & _); try assumption; [cbn; lia|].
      rewrite Hstep. unfold session_of. cbn [fst snd container_blob_offset].
      split; [|lia].
      destruct (Z.ltb_spec 59 total).
      * apply in_container with sizes';
          cbn [upload_state container_blob_offset container_end];
          [reflexivity|lia|lia|assumption].
      * apply at_boundary with sizes';
          cbn [upload_state container_blob_offset container_end];
          [reflexivity|lia|].
        replace (container_blob_offset s + Z.min 59 total)
          with (container_blob_offset s + total) by lia.
        assumption.
  - (* inside a container *)
    pose proof (next_command_continue blob s (replicate 67 x00)) as Hstep.
    cbv zeta in Hstep.
    assert (Hn : continue_chunk_size s
                 = Z.min 58 (container_end s - container_blob_offset s)).
    { unfold continue_chunk_size. rewrite btstack_min_spec, u32_small by lia.
      reflexivity. }
    rewrite Hn in Hstep.
    rewrite Hstep by (assumption || cbn; lia).
    unfold session_of. cbn [fst snd container_blob_offset].
    rewrite u32_small by lia. split; [|lia].
    destruct (Z.leb_spec (container_end s)
                (container_blob_offset s
                 + Z.min 58 (container_end s - container_blob_offset s))).
    + apply at_boundary with sizes;
        cbn [upload_state container_blob_offset container_end];
        [reflexivity|lia|].
      replace (container_blob_offset s
               + Z.min 58 (container_end s - container_blob_offset s))
        with (container_end s) by lia.
      assumption.
    + apply in_container with sizes;
        cbn [upload_state container_blob_offset container_end];
        [reflexivity|lia|lia|assumption].
Qed.

Lemma between_calls_init (blob : list byte) (sizes : list Z) (prior : session) :
  containers_at blob 0 sizes -> between_calls blob (chipset_init prior).
Proof.
  intros Hwf. apply at_boundary with sizes; cbn; [reflexivity| |assumption].
  unfold container_blob_size. lia.
Qed.

Lemma between_calls_after (blob : list byte) (sizes : list Z)
    (prior : session) (buf : list byte) (n : nat) :
  well_formed blob sizes ->
  between_calls blob (fst (after blob n (chipset_init prior) buf)).
Proof.
  intros [Hsize Hwf]. induction n as [|n IH].
  - cbn [after fst]. eapply between_calls_init, Hwf.
  - rewrite after_S_last. cbv zeta. cbn [fst].
    apply between_calls_step; assumption.
Qed.

(** ** The expected event lists *)

Lemma continue_events_length (k : nat) (seq remaining : Z) :
  length (continue_events k seq remaining) = k.
Proof.
  revert seq remaining. induction k as [|k IH]; intros; cbn [continue_events length].
  - reflexivity.
  - rewrite IH. reflexivity.
Qed.

Lemma continue_events_all_continue (k : nat) (seq remaining : Z) :
  forallb is_continue (continue_events k seq remaining) = true.
Proof.
  revert seq remaining.
  induction k as [|k IH]; intros; cbn [continue_events forallb is_continue andb].
  - reflexivity.
  - apply IH.
Qed.

Lemma continue_events_bytes (k : nat) (seq remaining : Z) :
  Z.of_nat k = (Z.max 0 remaining + 57) / 58 ->
  uploaded_bytes (continue_events k seq remaining) = Z.max 0 remaining.
Proof.
  revert seq remaining. induction k as [|k IH]; intros seq remaining Hk;
    unfold uploaded_bytes in *; cbn [continue_events map fold_right event_chunk_size].
  - Z.div_mod_to_equations. lia.
  - rewrite IH; Z.div_mod_to_equations; lia.
Qed.

Lemma container_events_bytes (total : Z) :
  0 <= total -> uploaded_bytes (container_events total) = total.
Proof.
  intros Ht. unfold container_events.
  change (uploaded_bytes (EvStart ?n :: ?l)) with (n + uploaded_bytes l).
  rewrite continue_events_bytes.
  - lia.
  - unfold continue_count. Z.div_mod_to_equations. lia.
Qed.

(** The counter numbers the Continue frames 1, 2, 3, ... as long as it does
    not wrap. *)
Lemma continue_events_numbered (k : nat) (seq remaining : Z) :
  0 <= seq ->
  seq + Z.of_nat k <= 2 ^ 16 ->
  continue_events k seq remaining = numbered_continue_events k seq remaining.
Proof.
  revert seq remaining. induction k as [|k IH]; intros seq remaining Hq Hk;
    cbn [continue_events numbered_continue_events].
  - reflexivity.
  - f_equal. destruct k as [|k]; [reflexivity|].
    rewrite u16_small by lia. apply IH; lia.
Qed.

(** The number the 16-bit counter puts into the Continue frame at index
    [i]. *)
Lemma continue_events_lookup (k i : nat) (seq remaining : Z) :
  (i < k)%nat ->
  0 <= seq < 2 ^ 16 ->
  continue_events k seq remaining !! i
  = Some (EvContinue (u16 (seq + Z.of_nat i))
            (Z.min 58 (remaining - 58 * Z.of_nat i))).
Proof.
  revert i seq remaining.
  induction k as [|k IH]; intros i seq remaining Hi Hq; [lia|].
  cbn [continue_events]. destruct i as [|i].
  - cbn [lookup list_lookup]. rewrite Z.add_0_r, u16_small by lia.
    do 3 f_equal. lia.
  - rewrite lookup_cons_ne_0 by lia. cbn [Nat.pred].
    rewrite IH by (lia || apply u16_range). do 2 f_equal.
    + unfold u16. rewrite Zplus_mod_idemp_l. f_equal. lia.
    + f_equal. lia.
Qed.

Lemma continue_count_numbered (total : Z) :
  total <= max_numbered_size -> continue_count total <= 65535.
Proof.
  unfold max_numbered_size, continue_count. intros H.
  Z.div_mod_to_equations. lia.
Qed.

Lemma container_events_numbered (total : Z) :
  total <= max_numbered_size ->
  container_events total = numbered_container_events total.
Proof.
  intros Ht. unfold container_events, numbered_container_events. f_equal.
  apply continue_events_numbered; [lia|].
  pose proof (continue_count_numbered total Ht).
  change (2 ^ 16) with 65536. lia.
Qed.

Lemma events_length (blob : list byte) (n : nat) (s : session)
    (buf : list byte) :
  length (events blob n s buf) = n.
Proof.
  unfold events. rewrite length_map. revert s buf.
  induction n as [|n IH]; intros; cbn [run length]; [reflexivity|].
  rewrite IH. reflexivity.
Qed.

(** ** Blobs made of one container *)

Lemma container_length (payload : list byte) :
  container_blob_size (container payload) = 8 + Z.of_nat (length payload).
Proof.
  unfold container_blob_size, container. rewrite !length_app.
  cbn [length le32_bytes]. lia.
Qed.

Lemma little_endian_read_32_drop (a : list byte) (pos : Z) :
  0 <= pos ->
  little_endian_read_32 a pos = little_endian_read_32 (drop (Z.to_nat pos) a) 0.
Proof.
  intros Hp. unfold little_endian_read_32.
  rewrite !byte_at_drop by lia. rewrite !Z.add_assoc, Z.add_0_r. reflexivity.
Qed.

Lemma container_well_formed (payload : list byte) :
  8 + Z.of_nat (length payload) < 2 ^ 32 ->
  well_formed (container payload) [8 + Z.of_nat (length payload)].
Proof.
  intros Hlen. split; [rewrite container_length; exact Hlen|].
  apply containers_next.
  - lia.
  - unfold container. apply read_32_le32_bytes. unfold container_magic. lia.
  - rewrite little_endian_read_32_drop by lia.
    change (0 + 4) with 4. unfold container.
    change (drop (Z.to_nat 4) (le32_bytes container_magic ++ ?l)) with l.
    apply read_32_le32_bytes. lia.
  - lia.
  - rewrite container_length. lia.
  - rewrite Z.add_0_l, <- container_length. apply containers_end.
Qed.

(** * Properties of the specification *)

(** ** CRC-32 *)

(** C3. [btstack_crc32] over the first [size] bytes of a buffer is the
    standard reflected CRC-32 of those bytes (polynomial 0xEDB88320, register
    initialised to all-ones, result complemented), every table entry being
    four bit steps of its index; the CRC of the empty input is 0 and the CRC
    of the nine ASCII digits "123456789" is 0xCBF43926. *)
Theorem btstack_crc32_standard (buf : list byte) (size : Z)
    (Hsize : 0 <= size <= Z.of_nat (length buf))
    (Hu16 : size < 2 ^ 16) :
  CRC.btstack_crc32 buf size = CRC.crc32_reference (take (Z.to_nat size) buf)
  /\ (forall n, 0 <= n < 16 ->
        CRC.table_at n = Nat.iter 4 CRC.shift_bit n)
  /\ (forall c b, CRC.crc32_update c (Z_of_byte b)
                  = CRC.crc32_reference_byte c b)
  /\ CRC.btstack_crc32 [] 0 = 0
  /\ CRC.btstack_crc32 [x31; x32; x33; x34; x35; x36; x37; x38; x39] 9
     = 0xCBF43926.
Proof.
  split; [|split; [|split; [|split]]].
  - apply CRCProofs.btstack_crc32_reference, Hsize.
  - apply CRCProofs.table_at_spec.
  - apply CRCProofs.crc32_update_reference.
  - vm_compute. reflexivity.
  - vm_compute. reflexivity.
Qed.

Lemma btstack_crc32_standard_witness :
  CRC.btstack_crc32 [x61; x62; x63; x64] 3
  = CRC.crc32_reference (take (Z.to_nat 3) [x61; x62; x63; x64]).
Proof.
  refine (proj1 (btstack_crc32_standard [x61; x62; x63; x64] 3 _ _));
    cbn; lia.
Defined.

(** ** The baud rate command *)

Lemma baudrate_lookup_absent (baudrate : Z) :
  ~ In baudrate baudrates ->
  baudrate_lookup baudrate (length baudrates) 0 = (15, 0).
Proof.
  intros Hnot. cbn [In baudrates] in Hnot.
  assert (Hne : forall r, (r = baudrate -> False) -> (r =? baudrate) = false)
    by (intros r Hr; apply Z.eqb_neq; exact Hr).
  cbn [baudrates length baudrate_lookup].
  repeat (cbn [Z.to_nat Z.add Pos.to_nat Pos.iter_op Nat.add nth Pos.add
                 Pos.succ];
          rewrite Hne by tauto).
  reflexivity.
Qed.

(** C7. With rate 115200 the command carries the single parameter byte 10,
    the index of 115200 in the table, and the length byte 1; with a rate that
    is not in the table nothing is written, every byte of the buffer is as it
    was, and the failure is reported ([log_error] is called, no command of
    length zero is emitted). *)
Theorem set_baudrate_command_lookup (baudrate : Z) (buf : list byte) :
  (4 <= Z.of_nat (length buf) ->
   chipset_set_baudrate_command 115200 buf
   = ([x07; xfc; x01; x0a] ++ drop 4 buf, false))
  /\ nth 10 baudrates 0 = 115200
  /\ length baudrates = 15%nat
  /\ (~ In baudrate baudrates ->
      chipset_set_baudrate_command baudrate buf = (buf, true)).
Proof.
  split; [|split; [|split]].
  - intros Hbuf. do 4 (let b := fresh "b" in buffer_cons buf Hbuf b).
    reflexivity.
  - reflexivity.
  - reflexivity.
  - intros Hnot. unfold chipset_set_baudrate_command.
    rewrite (baudrate_lookup_absent baudrate Hnot). reflexivity.
Qed.

Lemma set_baudrate_command_lookup_witness :
  chipset_set_baudrate_command 115200 cmd_buffer
  = ([x07; xfc; x01; x0a] ++ drop 4 cmd_buffer, false)
  /\ chipset_set_baudrate_command 12345 cmd_buffer = (cmd_buffer, true).
Proof.
  split.
  - apply (proj1 (set_baudrate_command_lookup 12345 cmd_buffer)).
    vm_compute. discriminate.
  - apply (proj2 (proj2 (proj2 (set_baudrate_command_lookup 12345 cmd_buffer)))).
    cbn [In baudrates]. intros H.
    repeat (destruct H as [H|H]; [discriminate H|]). exact H.
Defined.

(** C10. With rate 0 the call reports failure and leaves the buffer as it
    was, although 0 is the entry at the indices 0, 1 and 2: the lookup stops
    at index 0 with [found = 0], the very value [found] has when nothing
    matches. *)
Theorem set_baudrate_command_zero (buf : list byte) :
  chipset_set_baudrate_command 0 buf = (buf, true)
  /\ nth 0 baudrates 1 = 0 /\ nth 1 baudrates 1 = 0 /\ nth 2 baudrates 1 = 0
  /\ baudrate_lookup 0 (length baudrates) 0 = (0, 0)
  /\ snd (baudrate_lookup 0 (length baudrates) 0)
     = snd (baudrate_lookup 12345 (length baudrates) 0).
Proof. repeat split. Qed.

(** ** The upload state machine *)

(** C8. Once the blob is consumed and the reset was sent, so that a call
    returns Done, every later call with the same session returns Done again,
    produces no command, and leaves the session and the buffer as they
    were. *)
Theorem done_is_idempotent (blob : list byte) (s : session)
    (buf : list byte) (n : nat)
    (Hend : container_blob_size blob <= container_blob_offset s)
    (Hreset : em_cpu_reset_sent s <> 0) :
  chipset_next_command blob s buf = (BTSTACK_CHIPSET_DONE, s, buf)
  /\ run blob n s buf = replicate n (BTSTACK_CHIPSET_DONE, s, buf)
  /\ events blob n s buf = replicate n EvDone
  /\ after blob n s buf = (s, buf).
Proof.
  destruct (run_done blob n s buf Hend Hreset) as [Hrun Hafter].
  split; [|split; [|split]].
  - apply next_command_done; assumption.
  - exact Hrun.
  - apply events_done; assumption.
  - exact Hafter.
Qed.

Lemma done_is_idempotent_witness :
  run blob_52 3 (Session 60 60 2 1 UPLOAD_IDLE) cmd_buffer
  = replicate 3 (BTSTACK_CHIPSET_DONE, Session 60 60 2 1 UPLOAD_IDLE, cmd_buffer).
Proof.
  apply (done_is_idempotent blob_52 (Session 60 60 2 1 UPLOAD_IDLE)
           cmd_buffer 3).
  - vm_compute. discriminate.
  - cbn. lia.
Defined.

(** C1 as stated fails: at a corrupted tag the call returns
    [BTSTACK_CHIPSET_DONE], the code an upload that ran to its end returns,
    and the session stays as it was, in [UPLOAD_IDLE]; there is no
    result of its own and no state of its own for the error. *)
Lemma bad_tag_result_counterexample :
  let s := chipset_init zero_session in
  upload_state s = UPLOAD_IDLE
  /\ container_blob_offset s < container_blob_size corrupt_blob
  /\ little_endian_read_32 corrupt_blob (container_blob_offset s)
     <> container_magic
  /\ ~ (result_of (chipset_next_command corrupt_blob s cmd_buffer)
        <> result_of (chipset_next_command [] finished_session cmd_buffer))
  /\ session_of (chipset_next_command corrupt_blob s cmd_buffer) = s.
Proof.
  cbv zeta. repeat split.
  - vm_compute. discriminate.
  - intros H. apply H. reflexivity.
Qed.

(** C1, amended. When the phase is between containers, the cursor is inside
    the blob and the tag at the cursor is not the magic constant, the call
    produces no command and returns [BTSTACK_CHIPSET_DONE], the same code as
    ordinary completion; the session and the buffer are left as they were,
    so every later call does the same and no further command is produced. *)
Theorem bad_tag_returns_done (blob : list byte) (s : session)
    (buf : list byte) (n : nat)
    (Hinside : container_blob_offset s < container_blob_size blob)
    (Hidle : upload_state s = UPLOAD_IDLE)
    (Htag : little_endian_read_32 blob (container_blob_offset s)
            <> container_magic) :
  chipset_next_command blob s buf = (BTSTACK_CHIPSET_DONE, s, buf)
  /\ run blob n s buf = replicate n (BTSTACK_CHIPSET_DONE, s, buf)
  /\ events blob n s buf = replicate n EvDone.
Proof.
  pose proof (next_command_bad_tag blob s buf Hinside Hidle Htag) as Hstep.
  assert (Hrun : run blob n s buf
                 = replicate n (BTSTACK_CHIPSET_DONE, s, buf)).
  { induction n as [|n IH]; cbn [run replicate]; [reflexivity|].
    rewrite Hstep. unfold session_of, buffer_of. cbn [fst snd].
    rewrite IH. reflexivity. }
  split; [exact Hstep|split; [exact Hrun|]].
  unfold events. rewrite Hrun. clear.
  induction n as [|n IH]; cbn [replicate map]; [reflexivity|].
  rewrite IH. reflexivity.
Qed.

Lemma bad_tag_returns_done_witness :
  run corrupt_blob 2 (chipset_init zero_session) cmd_buffer
  = replicate 2 (BTSTACK_CHIPSET_DONE, chipset_init zero_session, cmd_buffer).
Proof.
  apply (bad_tag_returns_done corrupt_blob (chipset_init zero_session)
           cmd_buffer 2).
  - vm_compute. reflexivity.
  - reflexivity.
  - vm_compute. discriminate.
Defined.

(** *** Frame layouts *)

Lemma frame_params_start (chunk rest : list byte) :
  chunk_size chunk <= 59 ->
  frame_params (patch_start_frame chunk rest)
  = [x00] ++ le32_bytes (CRC.crc32_reference chunk) ++ chunk.
Proof.
  intros Hn. unfold frame_params.
  assert (Hlen : frame_length (patch_start_frame chunk rest)
                 = 5 + chunk_size chunk).
  { unfold patch_start_frame, frame_length. cbn [app].
    change (byte_at (x27 :: xfc :: byte_of_Z (5 + chunk_size chunk) :: ?l) 2)
      with (Z_of_byte (byte_of_Z (5 + chunk_size chunk))).
    rewrite Z_of_byte_of_Z. apply u8_small. unfold chunk_size in *. lia. }
  rewrite Hlen. unfold patch_start_frame. cbn [app drop le32_bytes].
  unfold chunk_size.
  replace (Z.to_nat (5 + Z.of_nat (length chunk)))
    with (5 + length chunk)%nat by lia.
  cbn [take Nat.add]. rewrite take_app_length. reflexivity.
Qed.

Lemma frame_params_continue (seq : Z) (chunk rest : list byte) :
  chunk_size chunk <= 58 ->
  frame_params (patch_continue_frame seq chunk rest)
  = le16_bytes seq ++ le32_bytes (CRC.crc32_reference chunk) ++ chunk.
Proof.
  intros Hn. unfold frame_params.
  assert (Hlen : frame_length (patch_continue_frame seq chunk rest)
                 = 6 + chunk_size chunk).
  { unfold patch_continue_frame, frame_length. cbn [app].
    change (byte_at (x28 :: xfc :: byte_of_Z (6 + chunk_size chunk) :: ?l) 2)
      with (Z_of_byte (byte_of_Z (6 + chunk_size chunk))).
    rewrite Z_of_byte_of_Z. apply u8_small. unfold chunk_size in *. lia. }
  rewrite Hlen. unfold patch_continue_frame.
  cbn [app drop le32_bytes le16_bytes]. unfold chunk_size.
  replace (Z.to_nat (6 + Z.of_nat (length chunk)))
    with (6 + length chunk)%nat by lia.
  cbn [take Nat.add]. rewrite take_app_length. reflexivity.
Qed.

Lemma frame_length_start (chunk rest : list byte) :
  chunk_size chunk <= 59 ->
  frame_length (patch_start_frame chunk rest) = 5 + chunk_size chunk.
Proof.
  intros Hn. unfold patch_start_frame, frame_length. cbn [app].
  change (byte_at (x27 :: xfc :: byte_of_Z (5 + chunk_size chunk) :: ?l) 2)
    with (Z_of_byte (byte_of_Z (5 + chunk_size chunk))).
  rewrite Z_of_byte_of_Z. apply u8_small. unfold chunk_size in *. lia.
Qed.

Lemma frame_length_continue (seq : Z) (chunk rest : list byte) :
  chunk_size chunk <= 58 ->
  frame_length (patch_continue_frame seq chunk rest) = 6 + chunk_size chunk.
Proof.
  intros Hn. unfold patch_continue_frame, frame_length. cbn [app].
  change (byte_at (x28 :: xfc :: byte_of_Z (6 + chunk_size chunk) :: ?l) 2)
    with (Z_of_byte (byte_of_Z (6 + chunk_size chunk))).
  rewrite Z_of_byte_of_Z. apply u8_small. unfold chunk_size in *. lia.
Qed.

(** C5. A Start frame has opcode 0xFC27, length byte 5 + chunk size, and
    the parameters: the marker byte 0, the little-endian CRC-32 of exactly
    the chunk bytes, the chunk bytes, with chunk size
    min(59, container_end - cursor); a Continue frame has opcode 0xFC28,
    length byte 6 + chunk size, and the parameters: the little-endian
    sequence number, the little-endian CRC-32 of exactly the chunk bytes, the
    chunk bytes, with chunk size min(58, container_end - cursor).  The
    differences are those of [uint32_t]; the chunk lies inside the blob and
    the frame inside the buffer. *)
Theorem patch_frame_layout (blob : list byte) (s : session)
    (buf : list byte)
    (Hinside : 0 <= container_blob_offset s < container_blob_size blob) :
  (upload_state s = UPLOAD_IDLE ->
   little_endian_read_32 blob (container_blob_offset s) = container_magic ->
   let e := start_container_end blob s in
   let n := Z.min 59 (u32 (e - container_blob_offset s)) in
   let chunk := blob_slice blob (container_blob_offset s) n in
   container_blob_offset s + n <= container_blob_size blob ->
   8 + n <= Z.of_nat (length buf) ->
   let o := chipset_next_command blob s buf in
   result_of o = BTSTACK_CHIPSET_VALID_COMMAND
   /\ frame_opcode (buffer_of o) = 0xFC27
   /\ frame_length (buffer_of o) = 5 + n
   /\ chunk_size chunk = n
   /\ frame_params (buffer_of o)
      = [x00] ++ le32_bytes (CRC.btstack_crc32 chunk n) ++ chunk
   /\ CRC.btstack_crc32 chunk n = CRC.crc32_reference chunk
   /\ little_endian_read_32 (buffer_of o) 4 = CRC.crc32_reference chunk
   /\ drop (Z.to_nat (8 + n)) (buffer_of o) = drop (Z.to_nat (8 + n)) buf)
  /\
  (upload_state s = UPLOAD_ACTIVE ->
   0 <= patch_sequence_number s < 2 ^ 16 ->
   let n := Z.min 58 (u32 (container_end s - container_blob_offset s)) in
   let chunk := blob_slice blob (container_blob_offset s) n in
   container_blob_offset s + n <= container_blob_size blob ->
   9 + n <= Z.of_nat (length buf) ->
   let o := chipset_next_command blob s buf in
   result_of o = BTSTACK_CHIPSET_VALID_COMMAND
   /\ frame_opcode (buffer_of o) = 0xFC28
   /\ frame_length (buffer_of o) = 6 + n
   /\ chunk_size chunk = n
   /\ frame_params (buffer_of o)
      = le16_bytes (patch_sequence_number s)
          ++ le32_bytes (CRC.btstack_crc32 chunk n) ++ chunk
   /\ little_endian_read_16 (buffer_of o) 3 = patch_sequence_number s
   /\ CRC.btstack_crc32 chunk n = CRC.crc32_reference chunk
   /\ little_endian_read_32 (buffer_of o) 5 = CRC.crc32_reference chunk
   /\ drop (Z.to_nat (9 + n)) (buffer_of o) = drop (Z.to_nat (9 + n)) buf).
Proof.
  split.
  - intros Hst Htag e n chunk Hin Hbuf o.
    assert (Hn : start_chunk_size blob s = n).
    { unfold start_chunk_size. apply btstack_min_spec. }
    pose proof (start_chunk_size_range blob s) as Hr. rewrite Hn in Hr.
    pose proof (next_command_start blob s buf) as Hstep. cbv zeta in Hstep.
    rewrite Hn in Hstep. specialize (Hstep Hinside Hst Htag Hin Hbuf).
    fold chunk in Hstep.
    assert (Hsz : chunk_size chunk = n) by (apply blob_slice_length; lia).
    assert (Hcrc : CRC.btstack_crc32 chunk n = CRC.crc32_reference chunk).
    { rewrite CRCProofs.btstack_crc32_reference by (unfold chunk_size in Hsz; lia).
      f_equal. apply take_ge. unfold chunk_size in Hsz. lia. }
    subst o. rewrite Hstep. unfold result_of, buffer_of. cbn [fst snd].
    rewrite frame_length_start, frame_params_start, Hsz, Hcrc by lia.
    repeat split.
    + unfold patch_start_frame. cbn [app].
      rewrite little_endian_read_32_drop by lia.
      change (drop (Z.to_nat 4) (?a :: ?b :: ?c :: ?d :: ?l)) with l.
      apply read_32_le32_bytes.
      rewrite <- Hcrc. apply CRCProofs.btstack_crc32_range.
    + unfold patch_start_frame. cbn [app le32_bytes].
      replace (Z.to_nat (8 + n)) with (8 + length chunk)%nat
        by (unfold chunk_size in Hsz; lia).
      cbn [drop Nat.add]. apply drop_app_length.
  - intros Hst Hq n chunk Hin Hbuf o.
    assert (Hn : continue_chunk_size s = n).
    { unfold continue_chunk_size. apply btstack_min_spec. }
    pose proof (continue_chunk_size_range s) as Hr. rewrite Hn in Hr.
    pose proof (next_command_continue blob s buf) as Hstep. cbv zeta in Hstep.
    rewrite Hn in Hstep. specialize (Hstep Hinside Hst Hin Hbuf).
    fold chunk in Hstep.
    assert (Hsz : chunk_size chunk = n) by (apply blob_slice_length; lia).
    assert (Hcrc : CRC.btstack_crc32 chunk n = CRC.crc32_reference chunk).
    { rewrite CRCProofs.btstack_crc32_reference by (unfold chunk_size in Hsz; lia).
      f_equal. apply take_ge. unfold chunk_size in Hsz. lia. }
    subst o. rewrite Hstep. unfold result_of, buffer_of. cbn [fst snd].
    rewrite frame_length_continue, frame_params_continue, Hsz, Hcrc by lia.
    repeat split.
    + unfold patch_continue_frame. cbn [app].
      change (little_endian_read_16 (?a :: ?b :: ?c :: ?l) 3)
        with (little_endian_read_16 l 0).
      apply (read_16_le16_bytes (patch_sequence_number s) _ Hq).
    + unfold patch_continue_frame. cbn [app].
      rewrite little_endian_read_32_drop by lia.
      change (drop (Z.to_nat 5) (?a :: ?b :: ?c :: ?d :: ?e :: ?l)) with l.
      apply read_32_le32_bytes.
      rewrite <- Hcrc. apply CRCProofs.btstack_crc32_range.
    + unfold patch_continue_frame. cbn [app le32_bytes le16_bytes].
      replace (Z.to_nat (9 + n)) with (9 + length chunk)%nat
        by (unfold chunk_size in Hsz; lia).
      cbn [drop Nat.add]. apply drop_app_length.
Qed.

Lemma patch_frame_layout_witness :
  frame_length
    (buffer_of (chipset_next_command blob_52 (chipset_init zero_session)
                  cmd_buffer)) = 5 + 59
  /\ frame_length
       (buffer_of (chipset_next_command blob_52
                     (Session 59 60 1 0 UPLOAD_ACTIVE) cmd_buffer)) = 6 + 1.
Proof.
  split.
  - assert (Hinside : 0 <= container_blob_offset (chipset_init zero_session)
                      < container_blob_size blob_52) by (vm_compute; split; congruence).
    refine (proj1 (proj2 (proj2
      (proj1 (patch_frame_layout blob_52 (chipset_init zero_session)
                cmd_buffer Hinside) _ _ _ _)))).
    + reflexivity.
    + vm_compute. reflexivity.
    + vm_compute. discriminate.
    + vm_compute. discriminate.
  - assert (Hinside : 0 <= container_blob_offset (Session 59 60 1 0 UPLOAD_ACTIVE)
                      < container_blob_size blob_52) by (vm_compute; split; congruence).
    refine (proj1 (proj2 (proj2
      (proj2 (patch_frame_layout blob_52 (Session 59 60 1 0 UPLOAD_ACTIVE)
                cmd_buffer Hinside) _ _ _ _)))).
    + reflexivity.
    + vm_compute. split; congruence.
    + vm_compute. discriminate.
    + vm_compute. discriminate.
Defined.

(** *** What is uploaded of a container *)

(** C9. The data of a container's Start frame begin at the container's
    first byte: its first eight bytes are the magic tag and the total-size
    field, and the frame's CRC-32 is computed over the chunk that holds
    them; the chunks of the container add up to its total size, header
    included, and the cursor then stands at the end of the container. *)
Theorem header_is_uploaded (blob : list byte) (s : session)
    (buf : list byte) (total : Z)
    (Hsize : container_blob_size blob < 2 ^ 32)
    (Hidle : upload_state s = UPLOAD_IDLE)
    (Hpos : 0 <= container_blob_offset s)
    (Htag : little_endian_read_32 blob (container_blob_offset s)
            = container_magic)
    (Htotal : little_endian_read_32 blob (container_blob_offset s + 4) = total)
    (Hheader : 8 <= total)
    (Hfit : container_blob_offset s + total <= container_blob_size blob)
    (Hbuf : 67 <= Z.of_nat (length buf)) :
  let n := Z.min 59 total in
  let chunk := blob_slice blob (container_blob_offset s) n in
  buffer_of (chipset_next_command blob s buf)
  = patch_start_frame chunk (drop (Z.to_nat (8 + n)) buf)
  /\ frame_params (buffer_of (chipset_next_command blob s buf))
     = [x00] ++ le32_bytes (CRC.crc32_reference chunk) ++ chunk
  /\ take 8 chunk = blob_slice blob (container_blob_offset s) 8
  /\ little_endian_read_32 chunk 0 = container_magic
  /\ little_endian_read_32 chunk 4 = total
  /\ events blob (container_calls total) s buf = container_events total
  /\ uploaded_bytes (events blob (container_calls total) s buf) = total
  /\ container_blob_offset (fst (after blob (container_calls total) s buf))
     = container_blob_offset s + total.
Proof.
  intros n chunk.
  set (o := container_blob_offset s) in *.
  assert (He : start_container_end blob s = o + total).
  { unfold start_container_end. fold o.
    rewrite (u32_small (o + 4)) by lia. rewrite Htotal. apply u32_small. lia. }
  assert (Hn : start_chunk_size blob s = n).
  { unfold start_chunk_size. rewrite He. fold o. rewrite btstack_min_spec.
    replace (o + total - o) with total by lia.
    rewrite u32_small by lia. reflexivity. }
  pose proof (next_command_start blob s buf) as Hstep. cbv zeta in Hstep.
  fold o in Hstep. rewrite Hn in Hstep.
  specialize (Hstep ltac:(lia) Hidle Htag ltac:(lia) ltac:(lia)).
  fold chunk in Hstep.
  assert (Hsz : chunk_size chunk = n) by (apply blob_slice_length; lia).
  destruct (run_container blob Hsize s buf total
              Hidle Hpos Htag Htotal Hheader Hfit Hbuf)
    as (Hev & Hoff & _).
  rewrite Hstep. unfold buffer_of. cbn [snd].
  split; [reflexivity|].
  split; [apply frame_params_start; lia|].
  split; [unfold chunk, blob_slice; rewrite take_take; f_equal; lia|].
  split; [unfold chunk; rewrite read_32_blob_slice by lia;
          rewrite Z.add_0_r; exact Htag|].
  split; [unfold chunk; rewrite read_32_blob_slice by lia; exact Htotal|].
  split; [exact Hev|].
  split; [rewrite Hev; apply container_events_bytes; lia|exact Hoff].
Qed.

Lemma header_is_uploaded_witness :
  uploaded_bytes
    (events blob_52 (container_calls 60) (chipset_init zero_session) cmd_buffer)
  = 60.
Proof.
  refine (proj1 (proj2 (proj2 (proj2 (proj2 (proj2 (proj2
    (header_is_uploaded blob_52 (chipset_init zero_session) cmd_buffer 60
       _ _ _ _ _ _ _ _)))))))).
  - vm_compute. reflexivity.
  - reflexivity.
  - vm_compute. discriminate.
  - vm_compute. reflexivity.
  - vm_compute. reflexivity.
  - vm_compute. discriminate.
  - vm_compute. discriminate.
  - vm_compute. discriminate.
Defined.

(** *** A blob of one container *)

(** C2 as stated fails: for the well-formed blob of one container with a
    payload of 52 bytes no number of calls yields one Start frame, the
    [ceil(max(0, 52 - 59) / 58) = 0] Continue frames, Reset and Done with
    chunk sizes adding up to 52: the header is uploaded too, the 60 bytes
    take a Start frame of 59 bytes and a Continue frame of 1 byte. *)
Lemma single_container_payload_counterexample :
  well_formed blob_52 [8 + 52]
  /\ events blob_52 4 (chipset_init zero_session) cmd_buffer
     = [EvStart 59; EvContinue 1 1; EvReset; EvDone]
  /\ ~ exists n,
        single_container_upload
          (events blob_52 n (chipset_init zero_session) cmd_buffer) 52.
Proof.
  split; [|split].
  - apply (container_well_formed (replicate 52 x00)). vm_compute. reflexivity.
  - vm_compute. reflexivity.
  - intros (n & start & continues & Hev & _ & _ & Hlen & _).
    change (continue_count 52) with 0 in Hlen.
    destruct continues as [|e continues]; [|cbn [length] in Hlen; lia].
    assert (Hn : n = 3%nat).
    { rewrite <- (events_length blob_52 n (chipset_init zero_session) cmd_buffer).
      rewrite Hev. reflexivity. }
    subst n. vm_compute in Hev. discriminate Hev.
Qed.

(** C2, amended. For every well-formed blob of exactly one container of
    total size T, header included (T = P + 8 for the payload length P), the
    calls from a freshly initialised session yield one Start frame of
    min(59, T) bytes, then [ceil(max(0, T - 59) / 58)] Continue frames, then
    one Reset frame, then Done; the chunk sizes of the Start and Continue
    frames add up to T. *)
Theorem single_container_upload_total (blob : list byte) (total : Z)
    (prior : session) (buf : list byte)
    (Hwf : well_formed blob [total])
    (Hbuf : 67 <= Z.of_nat (length buf)) :
  let k := Z.to_nat (continue_count total) in
  let evs := events blob (k + 3) (chipset_init prior) buf in
  evs = EvStart (Z.min 59 total)
          :: continue_events k 1 (total - 59) ++ [EvReset; EvDone]
  /\ single_container_upload evs total
  /\ uploaded_bytes (EvStart (Z.min 59 total)
                       :: continue_events k 1 (total - 59)) = total.
Proof.
  intros k evs. destruct Hwf as [Hsize Hwf].
  assert (H8 : 8 <= total) by (inversion Hwf; assumption).
  assert (Hevs : evs = container_events total ++ [EvReset; EvDone]).
  { subst evs.
    replace (k + 3)%nat with (upload_calls [total] + 2)%nat
      by (change (upload_calls [total]) with (S k + 0)%nat; lia).
    rewrite (events_containers blob 0 [total] Hsize Hwf
               (chipset_init prior) buf 1) by (reflexivity || assumption).
    cbn [map concat replicate]. rewrite app_nil_r. reflexivity. }
  assert (Hbytes : uploaded_bytes (container_events total) = total)
    by (apply container_events_bytes; lia).
  split; [exact Hevs|split; [|exact Hbytes]].
  exists (Z.min 59 total), (continue_events k 1 (total - 59)).
  split; [exact Hevs|].
  split; [lia|].
  split; [apply continue_events_all_continue|].
  split; [|exact Hbytes].
  rewrite continue_events_length. subst k.
  unfold continue_count. Z.div_mod_to_equations. lia.
Qed.

Lemma single_container_upload_total_witness :
  single_container_upload
    (events blob_52 (Z.to_nat (continue_count 60) + 3)
       (chipset_init zero_session) cmd_buffer) 60.
Proof.
  refine (proj1 (proj2
    (single_container_upload_total blob_52 60 zero_session cmd_buffer _ _))).
  - apply (container_well_formed (replicate 52 x00)). vm_compute. reflexivity.
  - vm_compute. discriminate.
Defined.

(** *** Sequence numbers *)

Lemma numbered_continue_events_lookup (k i : nat) (seq remaining : Z) :
  (i < k)%nat ->
  numbered_continue_events k seq remaining !! i
  = Some (EvContinue (seq + Z.of_nat i)
            (Z.min 58 (remaining - 58 * Z.of_nat i))).
Proof.
  revert i seq remaining.
  induction k as [|k IH]; intros i seq remaining Hi; [lia|].
  cbn [numbered_continue_events]. destruct i as [|i].
  - cbn [lookup list_lookup]. f_equal. f_equal; lia.
  - rewrite lookup_cons_ne_0 by lia. cbn [Nat.pred].
    rewrite IH by lia. f_equal. f_equal; lia.
Qed.

Lemma numbered_continue_events_length (k : nat) (seq remaining : Z) :
  length (numbered_continue_events k seq remaining) = k.
Proof.
  revert seq remaining.
  induction k as [|k IH]; intros; cbn [numbered_continue_events length].
  - reflexivity.
  - rewrite IH. reflexivity.
Qed.

Lemma long_blob_well_formed : well_formed long_blob [long_container_size].
Proof.
  pose proof (container_well_formed
                (replicate (Z.to_nat (long_container_size - 8)) x00)) as H.
  rewrite length_replicate in H.
  rewrite Z2Nat.id in H by (unfold long_container_size; lia).
  replace (8 + (long_container_size - 8)) with long_container_size in H by lia.
  apply H. unfold long_container_size. lia.
Qed.

Lemma long_blob_events :
  events long_blob (upload_calls [long_container_size] + 1)
    (chipset_init zero_session) cmd_buffer
  = EvStart 59
      :: continue_events (Z.to_nat 65536) 1 (long_container_size - 59)
      ++ [EvReset].
Proof.
  destruct long_blob_well_formed as [Hsize Hwf].
  rewrite (events_containers long_blob 0 [long_container_size] Hsize Hwf
             (chipset_init zero_session) cmd_buffer 0).
  - cbn [map concat replicate]. rewrite app_nil_r.
    unfold container_events.
    change (continue_count long_container_size) with 65536.
    change (Z.min 59 long_container_size) with 59.
    symmetry. apply app_comm_cons.
  - reflexivity.
  - reflexivity.
  - reflexivity.
  - unfold cmd_buffer. rewrite length_replicate. lia.
Qed.

(** C4 as stated fails: in the well-formed blob of one container of
    59 + 58 * 65536 bytes the Continue frame that follows the one numbered
    65535 carries the sequence number 0; the numbers of that container are
    not 1, 2, 3, ... *)
Lemma sequence_number_wrap_counterexample :
  well_formed long_blob [long_container_size]
  /\ (let evs :=
        events long_blob (upload_calls [long_container_size] + 1)
          (chipset_init zero_session) cmd_buffer in
      evs !! Z.to_nat 65535 = Some (EvContinue 65535 58)
      /\ evs !! Z.to_nat 65536 = Some (EvContinue 0 58)
      /\ evs <> concat (map numbered_container_events [long_container_size])
                  ++ [EvReset]).
Proof.
  split; [exact long_blob_well_formed|]. cbv zeta.
  rewrite long_blob_events.
  assert (Hat : forall i : Z, 0 <= i < 65536 ->
            (EvStart 59
               :: continue_events (Z.to_nat 65536) 1 (long_container_size - 59)
               ++ [EvReset]) !! Z.to_nat (i + 1)
            = Some (EvContinue (u16 (1 + i))
                      (Z.min 58 (long_container_size - 59 - 58 * i)))).
  { intros i Hi.
    replace (Z.to_nat (i + 1)) with (S (Z.to_nat i)) by lia.
    rewrite lookup_cons_ne_0 by lia. cbn [Nat.pred].
    rewrite lookup_app_l by (rewrite continue_events_length; lia).
    rewrite continue_events_lookup by (lia || (change (2 ^ 16) with 65536; lia)).
    rewrite Z2Nat.id by lia. reflexivity. }
  split; [|split].
  - apply (Hat 65534). lia.
  - apply (Hat 65535). lia.
  - intros Heq.
    assert (Hl : (EvStart 59
               :: continue_events (Z.to_nat 65536) 1 (long_container_size - 59)
               ++ [EvReset]) !! Z.to_nat (65535 + 1)
            = Some (EvContinue 0 58)) by (apply (Hat 65535); lia).
    rewrite Heq in Hl. cbn [map concat] in Hl. rewrite app_nil_r in Hl.
    unfold numbered_container_events in Hl.
    change (continue_count long_container_size) with 65536 in Hl.
    replace (Z.to_nat (65535 + 1)) with (S (Z.to_nat 65535)) in Hl by lia.
    rewrite <- app_comm_cons, lookup_cons_ne_0 in Hl by lia.
    cbn [Nat.pred] in Hl.
    rewrite lookup_app_l in Hl.
    + rewrite numbered_continue_events_lookup in Hl by lia.
      rewrite Z2Nat.id in Hl by lia. discriminate Hl.
    + rewrite numbered_continue_events_length. lia.
Qed.

Lemma container_events_length (total : Z) :
  length (container_events total) = container_calls total.
Proof.
  unfold container_events, container_calls. cbn [length].
  rewrite continue_events_length. reflexivity.
Qed.

Lemma upload_events_length (sizes : list Z) :
  length (concat (map container_events sizes)) = upload_calls sizes.
Proof.
  induction sizes as [|total sizes IH]; [reflexivity|].
  change (upload_calls (total :: sizes))
    with (container_calls total + upload_calls sizes)%nat.
  cbn [map concat]. rewrite length_app, container_events_length, IH.
  reflexivity.
Qed.

Lemma continue_count_wraps (total : Z) :
  max_numbered_size < total -> 65536 <= continue_count total.
Proof.
  unfold max_numbered_size, continue_count. intros H.
  Z.div_mod_to_equations. lia.
Qed.

(** The frames of each container, cut out of the events of the upload. *)
Lemma container_frames_events (blob : list byte) (before : list Z)
    (total : Z) (behind : list Z) (s : session) (buf : list byte) (m : nat) :
  well_formed blob (before ++ total :: behind) ->
  upload_state s = UPLOAD_IDLE ->
  container_blob_offset s = 0 ->
  em_cpu_reset_sent s = 0 ->
  67 <= Z.of_nat (length buf) ->
  container_frames
    (events blob (upload_calls (before ++ total :: behind) + S m) s buf)
    before total
  = container_events total.
Proof.
  intros [Hsize Hwf] Hst Ho Hr Hbuf.
  rewrite (events_containers blob 0 _ Hsize Hwf s buf m Hst Ho Hr Hbuf).
  unfold container_frames.
  rewrite map_app, concat_app. cbn [map concat].
  rewrite <- !app_assoc.
  rewrite drop_app_length' by (symmetry; apply upload_events_length).
  apply take_app_length'. symmetry. apply container_events_length.
Qed.

(** C4, amended. For every well-formed blob and every container in it of a
    total size of at most 59 + 58 * 65535 = 3801089 bytes (at most 65535
    Continue frames), the sequence numbers of the Continue frames emitted
    for that container are 1, 2, 3, ... without gaps or repeats, starting at
    1 whatever container precedes it; in every container the i-th Continue
    frame carries i modulo 2^16, so that in a larger container the frame
    that follows number 65535 carries 0. *)
Theorem continue_sequence_numbers (blob : list byte) (before : list Z)
    (total : Z) (behind : list Z) (prior : session) (buf : list byte)
    (m : nat)
    (Hwf : well_formed blob (before ++ total :: behind))
    (Hbuf : 67 <= Z.of_nat (length buf)) :
  let frames :=
    container_frames
      (events blob (upload_calls (before ++ total :: behind) + S m)
         (chipset_init prior) buf)
      before total in
  (total <= max_numbered_size -> frames = numbered_container_events total)
  /\ (59 < total ->
      frames !! 1%nat = Some (EvContinue 1 (Z.min 58 (total - 59))))
  /\ (forall i : nat,
        (i < Z.to_nat (continue_count total))%nat ->
        frames !! S i
        = Some (EvContinue (u16 (1 + Z.of_nat i))
                  (Z.min 58 (total - 59 - 58 * Z.of_nat i))))
  /\ (max_numbered_size < total ->
      frames !! Z.to_nat 65535 = Some (EvContinue 65535 58)
      /\ frames !! Z.to_nat 65536
         = Some (EvContinue 0 (Z.min 58 (total - max_numbered_size)))).
Proof.
  intros frames.
  assert (Hframes : frames = container_events total).
  { subst frames.
    apply (container_frames_events blob before total behind
             (chipset_init prior) buf m Hwf eq_refl eq_refl eq_refl Hbuf). }
  assert (Hat : forall i : nat,
            (i < Z.to_nat (continue_count total))%nat ->
            frames !! S i
            = Some (EvContinue (u16 (1 + Z.of_nat i))
                      (Z.min 58 (total - 59 - 58 * Z.of_nat i)))).
  { intros i Hi. rewrite Hframes. unfold container_events.
    rewrite lookup_cons_ne_0 by lia. cbn [Nat.pred].
    apply continue_events_lookup; [exact Hi|].
    change (2 ^ 16) with 65536. lia. }
  split; [|split; [|split; [exact Hat|]]].
  - intros Hsmall. rewrite Hframes. apply container_events_numbered, Hsmall.
  - intros Hmore. rewrite (Hat 0%nat).
    + change (Z.of_nat 0) with 0. rewrite Z.mul_0_r, Z.sub_0_r. reflexivity.
    + unfold continue_count. Z.div_mod_to_equations. lia.
  - intros Hlarge. pose proof (continue_count_wraps total Hlarge) as Hk.
    split.
    + replace (Z.to_nat 65535) with (S (Z.to_nat 65534)) by lia.
      rewrite Hat by lia. rewrite Z2Nat.id by lia.
      change (u16 (1 + 65534)) with 65535. do 2 f_equal.
      unfold max_numbered_size in Hlarge. lia.
    + replace (Z.to_nat 65536) with (S (Z.to_nat 65535)) by lia.
      rewrite Hat by lia. rewrite Z2Nat.id by lia.
      change (u16 (1 + 65535)) with 0. do 2 f_equal.
      unfold max_numbered_size. lia.
Qed.

Lemma continue_sequence_numbers_witness :
  container_frames
    (events (blob_52 ++ blob_52) (upload_calls ([60] ++ 60 :: []) + 2)
       (chipset_init zero_session) cmd_buffer)
    [60] 60
  = numbered_container_events 60.
Proof.
  refine (proj1 (continue_sequence_numbers (blob_52 ++ blob_52) [60] 60 []
                   zero_session cmd_buffer 1 _ _) _).
  - split; [vm_compute; reflexivity|].
    apply containers_next;
      [lia|vm_compute; reflexivity..|lia|vm_compute; discriminate|].
    apply containers_next;
      [lia|vm_compute; reflexivity..|lia|vm_compute; discriminate|].
    apply containers_end.
  - vm_compute. discriminate.
  - vm_compute. discriminate.
Defined.

(** *** The cursor *)

(** C6 as stated fails: with a header that announces more bytes than the
    blob holds, the first call from a freshly initialised session moves the
    cursor to 59, past the end of the 12-byte blob. *)
Lemma cursor_overrun_counterexample :
  container_blob_size overrun_blob = 12
  /\ container_blob_offset
       (fst (after overrun_blob 1 (chipset_init zero_session) cmd_buffer)) = 59
  /\ ~ (container_blob_offset
          (fst (after overrun_blob 1 (chipset_init zero_session) cmd_buffer))
        <= container_blob_size overrun_blob).
Proof.
  split; [reflexivity|split; [vm_compute; reflexivity|]].
  vm_compute. intros H. apply H. reflexivity.
Qed.

Lemma byte_at_nonneg (a : list byte) (i : Z) : 0 <= byte_at a i.
Proof.
  unfold byte_at. destruct (i <? 0); [lia|].
  destruct (a !! Z.to_nat i) as [b|]; [|lia].
  pose proof (Z_of_byte_range b). lia.
Qed.

Lemma little_endian_read_32_nonneg (a : list byte) (pos : Z) :
  0 <= little_endian_read_32 a pos.
Proof.
  unfold little_endian_read_32.
  repeat (apply Z.lor_nonneg; split);
    try apply Z.shiftl_nonneg; apply byte_at_nonneg.
Qed.

Lemma upload_chunk_range (cap x : Z) :
  0 <= cap < 2 ^ 16 -> 0 <= u16 (btstack_min cap (u32 x)) <= cap.
Proof.
  intros Hcap. pose proof (u32_range x).
  rewrite btstack_min_spec, u16_small; lia.
Qed.

(** In a blob of at most 2^32 - 59 bytes no call moves the cursor back. *)
Lemma cursor_step_monotone (blob : list byte) (s : session)
    (buf : list byte) :
  container_blob_size blob <= 2 ^ 32 - 59 ->
  0 <= container_blob_offset s ->
  container_blob_offset s
  <= container_blob_offset (session_of (chipset_next_command blob s buf)).
Proof.
  intros Hsize Hpos. unfold chipset_next_command.
  destruct (Z.leb_spec (container_blob_size blob) (container_blob_offset s))
    as [Hend|Hinside].
  - destruct (0 =? em_cpu_reset_sent s); unfold session_of;
      cbn [fst snd container_blob_offset]; lia.
  - destruct (upload_state s).
    + destruct (negb _); unfold session_of;
        cbn [fst snd container_blob_offset]; [lia|].
      match goal with
      | |- context [u16 (btstack_min 59 (u32 ?x))] =>
          pose proof (upload_chunk_range 59 x ltac:(lia)) as Hn;
          set (n := u16 (btstack_min 59 (u32 x))) in *
      end.
      rewrite u32_small; lia.
    + unfold session_of. cbn [fst snd container_blob_offset].
      match goal with
      | |- context [u16 (btstack_min 58 (u32 ?x))] =>
          pose proof (upload_chunk_range 58 x ltac:(lia)) as Hn;
          set (n := u16 (btstack_min 58 (u32 x))) in *
      end.
      rewrite u32_small; lia.
Qed.

Lemma cursor_after_monotone (blob : list byte) (prior : session)
    (buf : list byte) (n : nat) :
  container_blob_size blob <= 2 ^ 32 - 59 ->
  0 <= container_blob_offset (fst (after blob n (chipset_init prior) buf))
  /\ container_blob_offset (fst (after blob n (chipset_init prior) buf))
     <= container_blob_offset
          (fst (after blob (S n) (chipset_init prior) buf)).
Proof.
  intros Hsize.
  assert (Hpos : forall k,
            0 <= container_blob_offset
                   (fst (after blob k (chipset_init prior) buf))).
  { induction k as [|k IH]; [cbn; lia|].
    rewrite after_S_last. cbv zeta. cbn [fst].
    pose proof (cursor_step_monotone blob _
                  (snd (after blob k (chipset_init prior) buf)) Hsize IH).
    lia. }
  split; [apply Hpos|].
  rewrite (after_S_last blob n). cbv zeta. cbn [fst].
  apply cursor_step_monotone; [exact Hsize|apply Hpos].
Qed.

Lemma containers_at_fit (blob : list byte) (pos : Z) (sizes : list Z) :
  container_blob_size blob < 2 ^ 32 ->
  containers_at blob pos sizes -> containers_fit blob pos.
Proof.
  intros Hsize.
  induction 1 as [|pos total sizes Hpos Htag Htotal H8 Hfit Hwf IH].
  - apply fit_end. lia.
  - apply fit_next with total; try assumption; [lia|].
    rewrite u32_small by lia. exact Htotal.
Qed.

(** A call on a blob whose containers fit keeps the session between
    containers or inside one, and the cursor between where it was and the
    end of the blob. *)
Lemma fit_between_step (blob : list byte) (s : session) (buf : list byte) :
  container_blob_size blob < 2 ^ 32 ->
  fit_between blob s ->
  let s' := session_of (chipset_next_command blob s buf) in
  fit_between blob s'
  /\ container_blob_offset s <= container_blob_offset s'
     <= container_blob_size blob.
Proof.
  intros Hsize Hinv s'. subst s'.
  rewrite (session_of_next_command_buffer blob s buf (replicate 67 x00)).
  assert (Hstart : forall total,
            upload_state s = UPLOAD_IDLE ->
            0 <= container_blob_offset s < container_blob_size blob ->
            little_endian_read_32 blob (container_blob_offset s)
            = container_magic ->
            little_endian_read_32 blob (u32 (container_blob_offset s + 4))
            = total ->
            container_blob_offset s + total <= container_blob_size blob ->
            session_of (chipset_next_command blob s (replicate 67 x00))
            = {| container_blob_offset :=
                   container_blob_offset s + Z.min 59 total;
                 container_end := container_blob_offset s + total;
                 patch_sequence_number := 1;
                 em_cpu_reset_sent := em_cpu_reset_sent s;
                 upload_state :=
                   if 59 <? total then UPLOAD_ACTIVE else UPLOAD_IDLE |}
            /\ 0 <= total).
  { intros total Hst Ho Htag Htotal Hfit.
    assert (H0 : 0 <= total)
      by (rewrite <- Htotal; apply little_endian_read_32_nonneg).
    set (o := container_blob_offset s) in *.
    assert (Hce : start_container_end blob s = o + total).
    { unfold start_container_end. fold o. rewrite Htotal.
      apply u32_small. lia. }
    assert (Hn : start_chunk_size blob s = Z.min 59 total).
    { unfold start_chunk_size. rewrite Hce. fold o. rewrite btstack_min_spec.
      replace (o + total - o) with total by lia.
      rewrite u32_small by lia. reflexivity. }
    pose proof (next_command_start blob s (replicate 67 x00)) as Hstep.
    cbv zeta in Hstep. fold o in Hstep. rewrite Hn, Hce in Hstep.
    rewrite Hstep by (assumption || cbn; lia).
    unfold session_of. cbn [fst]. rewrite u32_small by lia.
    split; [|exact H0]. f_equal.
    destruct (Z.ltb_spec (o + Z.min 59 total) (o + total)),
      (Z.ltb_spec 59 total); reflexivity || lia. }
  destruct Hinv as [Hst Ho Hfit|Hst Ho He Hfit].
  - inversion Hfit as [pos Hend|pos Hin Htag|pos Hin Htag Hzero
                       |pos total Hin Htag Htotal Hinside Hnext].
    + (* the blob is consumed: Reset or Done *)
      destruct (Z.eq_dec (em_cpu_reset_sent s) 0) as [Hr|Hr].
      * rewrite next_command_reset by (cbn; lia).
        unfold session_of. cbn [fst snd container_blob_offset]. split; [|lia].
        apply fit_at_boundary;
          cbn [upload_state container_blob_offset]; assumption.
      * rewrite next_command_done by (assumption || lia).
        unfold session_of. cbn [fst snd]. split; [|lia].
        apply fit_at_boundary; assumption.
    + (* a wrong tag: nothing moves *)
      rewrite next_command_bad_tag by assumption.
      unfold session_of. cbn [fst snd]. split; [|lia].
      apply fit_at_boundary; assumption.
    + (* a container of size 0: the boundary stays *)
      destruct (Hstart 0 Hst ltac:(lia) Htag Hzero ltac:(lia)) as [Hs _].
      rewrite Hs. cbn [container_blob_offset Z.ltb Z.compare].
      split; [|lia].
      apply fit_at_boundary;
        cbn [upload_state container_blob_offset]; [reflexivity|lia|].
      replace (container_blob_offset s + Z.min 59 0)
        with (container_blob_offset s) by lia.
      exact Hfit.
    + (* a container that fits *)
      destruct (Hstart total Hst ltac:(lia) Htag Htotal Hinside) as [Hs H0].
      rewrite Hs. cbn [container_blob_offset]. split; [|lia].
      destruct (Z.ltb_spec 59 total).
      * apply fit_in_container;
          cbn [upload_state container_blob_offset container_end];
          [reflexivity|lia|lia|assumption].
      * apply fit_at_boundary;
          cbn [upload_state container_blob_offset container_end];
          [reflexivity|lia|].
        replace (container_blob_offset s + Z.min 59 total)
          with (container_blob_offset s + total) by lia.
        assumption.
  - (* inside a container *)
    pose proof (next_command_continue blob s (replicate 67 x00)) as Hstep.
    cbv zeta in Hstep.
    assert (Hn : continue_chunk_size s
                 = Z.min 58 (container_end s - container_blob_offset s)).
    { unfold continue_chunk_size. rewrite btstack_min_spec, u32_small by lia.
      reflexivity. }
    rewrite Hn in Hstep.
    rewrite Hstep by (assumption || cbn; lia).
    unfold session_of. cbn [fst snd container_blob_offset].
    rewrite u32_small by lia. split; [|lia].
    destruct (Z.leb_spec (container_end s)
                (container_blob_offset s
                 + Z.min 58 (container_end s - container_blob_offset s))).
    + apply fit_at_boundary;
        cbn [upload_state container_blob_offset container_end];
        [reflexivity|lia|].
      replace (container_blob_offset s
               + Z.min 58 (container_end s - container_blob_offset s))
        with (container_end s) by lia.
      assumption.
    + apply fit_in_container;
        cbn [upload_state container_blob_offset container_end];
        [reflexivity|lia|lia|assumption].
Qed.

Lemma fit_between_after (blob : list byte) (prior : session)
    (buf : list byte) (n : nat) :
  container_blob_size blob < 2 ^ 32 ->
  containers_fit blob 0 ->
  fit_between blob (fst (after blob n (chipset_init prior) buf)).
Proof.
  intros Hsize Hfit. induction n as [|n IH].
  - cbn [after fst]. apply fit_at_boundary; cbn; [reflexivity| |exact Hfit].
    unfold container_blob_size. lia.
  - rewrite after_S_last. cbv zeta. cbn [fst].
    apply fit_between_step; assumption.
Qed.

(** C6, amended. For every blob (of less than 2^32 bytes, as its [uint32_t]
    size has it) and every sequence of calls from a freshly initialised
    session: when the blob has at most 2^32 - 59 bytes the cursor never
    decreases from one call to the next, whatever the blob holds; and when
    every container the upload comes to lies inside the blob, as in every
    well-formed blob, the cursor never decreases and never exceeds the blob
    length. *)
Theorem cursor_monotone_bounded (blob : list byte) (prior : session)
    (buf : list byte) (n : nat)
    (Hsize : container_blob_size blob < 2 ^ 32) :
  let before := fst (after blob n (chipset_init prior) buf) in
  let after_call := fst (after blob (S n) (chipset_init prior) buf) in
  (container_blob_size blob <= 2 ^ 32 - 59 ->
   0 <= container_blob_offset before
   /\ container_blob_offset before <= container_blob_offset after_call)
  /\ (containers_fit blob 0 ->
      0 <= container_blob_offset before
      /\ container_blob_offset before <= container_blob_offset after_call
      /\ container_blob_offset after_call <= container_blob_size blob)
  /\ (forall sizes : list Z,
        well_formed blob sizes ->
        0 <= container_blob_offset before
        /\ container_blob_offset before <= container_blob_offset after_call
        /\ container_blob_offset after_call <= container_blob_size blob).
Proof.
  intros before after_call.
  assert (Hfit : containers_fit blob 0 ->
            0 <= container_blob_offset before
            /\ container_blob_offset before <= container_blob_offset after_call
            /\ container_blob_offset after_call <= container_blob_size blob).
  { intros Hfit.
    pose proof (fit_between_after blob prior buf n Hsize Hfit) as Hinv.
    fold before in Hinv.
    assert (Hstep : after_call
                    = session_of (chipset_next_command blob before
                         (snd (after blob n (chipset_init prior) buf)))).
    { subst after_call. rewrite after_S_last. reflexivity. }
    destruct (fit_between_step blob before
                (snd (after blob n (chipset_init prior) buf)) Hsize Hinv)
      as [_ Hmono].
    rewrite <- Hstep in Hmono.
    split; [destruct Hinv; lia|lia]. }
  split; [|split; [exact Hfit|]].
  - intros Hsmall. apply cursor_after_monotone, Hsmall.
  - intros sizes [_ Hwf]. apply Hfit.
    apply (containers_at_fit blob 0 sizes Hsize Hwf).
Qed.

Lemma cursor_monotone_bounded_witness :
  (0 <= container_blob_offset
          (fst (after short_container_blob 1 (chipset_init zero_session)
                  cmd_buffer))
   /\ container_blob_offset
        (fst (after short_container_blob 1 (chipset_init zero_session)
                cmd_buffer))
      <= container_blob_offset
           (fst (after short_container_blob 2 (chipset_init zero_session)
                   cmd_buffer)))
  /\ container_blob_offset
       (fst (after short_container_blob 2 (chipset_init zero_session)
               cmd_buffer))
     <= container_blob_size short_container_blob.
Proof.
  assert (Hsize : container_blob_size short_container_blob < 2 ^ 32)
    by (vm_compute; reflexivity).
  split.
  - refine (proj1 (cursor_monotone_bounded short_container_blob zero_session
                     cmd_buffer 1 Hsize) _).
    vm_compute. discriminate.
  - refine (proj2 (proj2 (proj1 (proj2
      (cursor_monotone_bounded short_container_blob zero_session
         cmd_buffer 1 Hsize)) _))).
    apply fit_next with 4.
    + vm_compute. reflexivity.
    + vm_compute. reflexivity.
    + vm_compute. reflexivity.
    + vm_compute. discriminate.
    + apply fit_bad_tag; vm_compute; [reflexivity|discriminate].
Defined.

(** Where the cursor goes when a container begins at it. *)
Lemma start_cursor (blob : list byte) (s : session) (buf : list byte) :
  container_blob_offset s < container_blob_size blob ->
  upload_state s = UPLOAD_IDLE ->
  little_endian_read_32 blob (container_blob_offset s) = container_magic ->
  container_blob_offset (session_of (chipset_next_command blob s buf))
  = u32 (container_blob_offset s + u16 (start_chunk_size blob s)).
Proof.
  intros Ho Hst Htag. unfold chipset_next_command.
  rewrite (proj2 (Z.leb_gt _ _)) by lia.
  rewrite Hst, Htag. reflexivity.
Qed.

Lemma wrap_blob_container_length :
  length (container (replicate (Z.to_nat (wrap_first_size - 8)) x00))
  = Z.to_nat wrap_first_size.
Proof.
  pose proof (container_length
                (replicate (Z.to_nat (wrap_first_size - 8)) x00)) as H.
  unfold container_blob_size in H. rewrite length_replicate in H.
  unfold wrap_first_size in *. lia.
Qed.

Lemma wrap_blob_size : container_blob_size wrap_blob = 2 ^ 32 - 12.
Proof.
  unfold container_blob_size, wrap_blob.
  rewrite length_app, wrap_blob_container_length.
  cbn [length le32_bytes app]. unfold wrap_first_size. lia.
Qed.

Lemma wrap_blob_first_header :
  little_endian_read_32 wrap_blob 0 = container_magic
  /\ little_endian_read_32 wrap_blob (0 + 4) = wrap_first_size.
Proof.
  unfold wrap_blob, container. rewrite <- !app_assoc. split.
  - apply read_32_le32_bytes. unfold container_magic. lia.
  - rewrite little_endian_read_32_drop by lia.
    change (drop (Z.to_nat (0 + 4)) (le32_bytes container_magic ++ ?l)) with l.
    rewrite length_replicate, Z2Nat.id by (unfold wrap_first_size; lia).
    replace (8 + (wrap_first_size - 8)) with wrap_first_size by lia.
    apply read_32_le32_bytes. unfold wrap_first_size. lia.
Qed.

Lemma wrap_blob_second_header :
  little_endian_read_32 wrap_blob wrap_first_size = container_magic
  /\ little_endian_read_32 wrap_blob (wrap_first_size + 4) = 100.
Proof.
  split.
  - rewrite little_endian_read_32_drop by (unfold wrap_first_size; lia).
    unfold wrap_blob.
    rewrite drop_app_length' by (symmetry; apply wrap_blob_container_length).
    apply read_32_le32_bytes. unfold container_magic. lia.
  - rewrite little_endian_read_32_drop by (unfold wrap_first_size; lia).
    replace (Z.to_nat (wrap_first_size + 4))
      with (Z.to_nat wrap_first_size + 4)%nat
      by (unfold wrap_first_size; lia).
    rewrite <- drop_drop. unfold wrap_blob.
    rewrite drop_app_length' by (symmetry; apply wrap_blob_container_length).
    change (drop 4 (le32_bytes container_magic ++ ?l)) with l.
    rewrite <- (app_nil_r (le32_bytes 100)).
    apply read_32_le32_bytes. lia.
Qed.

(** Past 2^32 - 59 bytes the cursor can go back: in a blob of 2^32 - 12
    bytes whose second header, at offset 2^32 - 20, announces 100 bytes, the
    call at that header adds 59 to the cursor, which wraps to 39. *)
Lemma cursor_wraps_in_huge_blob :
  container_blob_size wrap_blob = 2 ^ 32 - 12
  /\ container_blob_offset
       (fst (after wrap_blob (container_calls wrap_first_size)
               (chipset_init zero_session) cmd_buffer)) = 2 ^ 32 - 20
  /\ container_blob_offset
       (fst (after wrap_blob (S (container_calls wrap_first_size))
               (chipset_init zero_session) cmd_buffer)) = 39.
Proof.
  pose proof wrap_blob_size as Hsize.
  destruct wrap_blob_first_header as [Htag1 Htotal1].
  destruct wrap_blob_second_header as [Htag2 Htotal2].
  assert (Hbuf : 67 <= Z.of_nat (length cmd_buffer))
    by (unfold cmd_buffer; rewrite length_replicate; lia).
  destruct (run_container wrap_blob ltac:(lia) (chipset_init zero_session)
              cmd_buffer wrap_first_size eq_refl ltac:(cbn; lia)
              Htag1 Htotal1 ltac:(unfold wrap_first_size; lia)
              ltac:(rewrite Hsize; unfold wrap_first_size; cbn; lia) Hbuf)
    as (_ & Hoff & Hstate & _).
  change (container_blob_offset (chipset_init zero_session)) with 0 in Hoff.
  rewrite Z.add_0_l in Hoff.
  split; [exact Hsize|split; [rewrite Hoff; reflexivity|]].
  rewrite after_S_last. cbv zeta. cbn [fst].
  set (s1 := fst (after wrap_blob (container_calls wrap_first_size)
                    (chipset_init zero_session) cmd_buffer)) in *.
  rewrite start_cursor
    by (rewrite ?Hoff, ?Hsize; unfold wrap_first_size; assumption || lia).
  unfold start_chunk_size, start_container_end.
  rewrite Hoff.
  rewrite (u32_small (wrap_first_size + 4)) by (unfold wrap_first_size; lia).
  rewrite Htotal2. reflexivity.
Qed.


(** * Further properties of the code *)

(** ** The address and baud rate commands *)

Lemma byte_of_Z_of_byte (b : byte) : byte_of_Z (Z_of_byte b) = b.
Proof.
  unfold byte_of_Z. rewrite u8_small by apply Z_of_byte_range.
  unfold Z_of_byte. rewrite N2Z.id, Byte.of_to_N. reflexivity.
Qed.

Lemma reverse_bd_addr_stores (a0 a1 a2 a3 a4 a5 : byte)
    (b0 b1 b2 b3 b4 b5 b6 b7 b8 : byte) (rest : list byte) :
  reverse_bd_addr [a0; a1; a2; a3; a4; a5]
    (b0 :: b1 :: b2 :: b3 :: b4 :: b5 :: b6 :: b7 :: b8 :: rest) 3
  = b0 :: b1 :: b2
      :: byte_of_Z (Z_of_byte a5) :: byte_of_Z (Z_of_byte a4)
      :: byte_of_Z (Z_of_byte a3) :: byte_of_Z (Z_of_byte a2)
      :: byte_of_Z (Z_of_byte a1) :: byte_of_Z (Z_of_byte a0) :: rest.
Proof. reflexivity. Qed.

(** X1. The address command is opcode 0xFC02 with length byte 6 followed by
    the six address bytes in reverse order; the buffer behind these nine
    bytes is left as it was. *)
Theorem set_bd_addr_command_layout (addr buf : list byte)
    (Haddr : length addr = 6%nat)
    (Hbuf : 9 <= Z.of_nat (length buf)) :
  chipset_set_bd_addr_command addr buf
  = [x02; xfc; x06] ++ rev addr ++ drop 9 buf
  /\ length (chipset_set_bd_addr_command addr buf) = length buf
  /\ rev (take 6 (drop 3 (chipset_set_bd_addr_command addr buf))) = addr.
Proof.
  do 6 (destruct addr as [|? addr]; [discriminate Haddr|]).
  destruct addr; [|discriminate Haddr].
  do 9 (let b := fresh "b" in buffer_cons buf Hbuf b).
  unfold chipset_set_bd_addr_command.
  change (store_8 (little_endian_store_16 (?c0 :: ?c1 :: ?c2 :: ?l) 0
                     (OPCODE OGF_VENDOR 2)) 2 6) with (x02 :: xfc :: x06 :: l).
  rewrite reverse_bd_addr_stores, !byte_of_Z_of_byte.
  repeat split.
Qed.

Lemma set_bd_addr_command_layout_witness :
  chipset_set_bd_addr_command [x11; x22; x33; x44; x55; x66] cmd_buffer
  = [x02; xfc; x06] ++ rev [x11; x22; x33; x44; x55; x66] ++ drop 9 cmd_buffer.
Proof.
  refine (proj1 (set_bd_addr_command_layout
                   [x11; x22; x33; x44; x55; x66] cmd_buffer _ _)).
  - reflexivity.
  - vm_compute. discriminate.
Defined.

Lemma baudrate_lookup_present (i : nat) :
  (3 <= i < 15)%nat ->
  baudrate_lookup (nth i baudrates 0) (length baudrates) 0
  = (Z.of_nat i, Z.of_nat i).
Proof.
  intros Hi.
  do 3 (destruct i as [|i]; [lia|]).
  do 12 (destruct i as [|i]; [reflexivity|]).
  lia.
Qed.

Lemma In_baudrates_nth (baudrate : Z) :
  In baudrate baudrates -> baudrate <> 0 ->
  exists i : nat, (3 <= i < 15)%nat /\ nth i baudrates 0 = baudrate.
Proof.
  intros Hin Hnz. cbn [In baudrates] in Hin.
  do 3 (destruct Hin as [Hin|Hin]; [congruence|]).
  destruct Hin as [Hin|Hin]; [exists 3%nat; split; [lia|exact Hin]|].
  destruct Hin as [Hin|Hin]; [exists 4%nat; split; [lia|exact Hin]|].
  destruct Hin as [Hin|Hin]; [exists 5%nat; split; [lia|exact Hin]|].
  destruct Hin as [Hin|Hin]; [exists 6%nat; split; [lia|exact Hin]|].
  destruct Hin as [Hin|Hin]; [exists 7%nat; split; [lia|exact Hin]|].
  destruct Hin as [Hin|Hin]; [exists 8%nat; split; [lia|exact Hin]|].
  destruct Hin as [Hin|Hin]; [exists 9%nat; split; [lia|exact Hin]|].
  destruct Hin as [Hin|Hin]; [exists 10%nat; split; [lia|exact Hin]|].
  destruct Hin as [Hin|Hin]; [exists 11%nat; split; [lia|exact Hin]|].
  destruct Hin as [Hin|Hin]; [exists 12%nat; split; [lia|exact Hin]|].
  destruct Hin as [Hin|Hin]; [exists 13%nat; split; [lia|exact Hin]|].
  destruct Hin as [Hin|Hin]; [exists 14%nat; split; [lia|exact Hin]|].
  destruct Hin.
Qed.

(** X2. For every rate of the table other than 0 the baud rate command is
    opcode 0xFC07 with length byte 1 and the one parameter byte the index of
    the rate in the table, between 3 and 14, and no failure is reported; the
    command fails exactly for the rate 0 and for the rates not in the
    table. *)
Theorem set_baudrate_command_supported (baudrate : Z) (buf : list byte)
    (Hbuf : 4 <= Z.of_nat (length buf)) :
  (In baudrate baudrates -> baudrate <> 0 ->
   exists i : nat,
     (3 <= i < 15)%nat /\ nth i baudrates 0 = baudrate
     /\ chipset_set_baudrate_command baudrate buf
        = ([x07; xfc; x01; byte_of_Z (Z.of_nat i)] ++ drop 4 buf, false))
  /\ (snd (chipset_set_baudrate_command baudrate buf) = true
      <-> baudrate = 0 \/ ~ In baudrate baudrates).
Proof.
  assert (Hok : In baudrate baudrates -> baudrate <> 0 ->
            exists i : nat,
              (3 <= i < 15)%nat /\ nth i baudrates 0 = baudrate
              /\ chipset_set_baudrate_command baudrate buf
                 = ([x07; xfc; x01; byte_of_Z (Z.of_nat i)] ++ drop 4 buf,
                    false)).
  { intros Hin Hnz.
    destruct (In_baudrates_nth baudrate Hin Hnz) as (i & Hi & Hnth).
    exists i. split; [exact Hi|split; [exact Hnth|]].
    unfold chipset_set_baudrate_command.
    rewrite <- Hnth, (baudrate_lookup_present i Hi).
    destruct (Z.eqb_spec (Z.of_nat i) 0) as [E|_]; [lia|].
    do 4 (let b := fresh "b" in buffer_cons buf Hbuf b).
    reflexivity. }
  split; [exact Hok|]. split.
  - intros Hfail.
    destruct (Z.eq_dec baudrate 0) as [Hz|Hnz]; [left; exact Hz|].
    right. intros Hin.
    destruct (Hok Hin Hnz) as (i & _ & _ & Hcmd).
    rewrite Hcmd in Hfail. discriminate Hfail.
  - intros [Hz|Hnot].
    + subst baudrate. reflexivity.
    + unfold chipset_set_baudrate_command.
      rewrite (baudrate_lookup_absent baudrate Hnot). reflexivity.
Qed.

Lemma set_baudrate_command_supported_witness :
  snd (chipset_set_baudrate_command 9600 cmd_buffer) = true
  <-> 9600 = 0 \/ ~ In 9600 baudrates.
Proof.
  refine (proj2 (set_baudrate_command_supported 9600 cmd_buffer _)).
  vm_compute. discriminate.
Defined.

Lemma store_8_length (a : list byte) (i v : Z) :
  length (store_8 a i v) = length a.
Proof.
  unfold store_8. destruct (i <? 0); [reflexivity|apply length_insert].
Qed.

Lemma store_8_drop (a : list byte) (i v : Z) (n : nat) :
  i < Z.of_nat n -> drop n (store_8 a i v) = drop n a.
Proof.
  intros Hi. unfold store_8. destruct (Z.ltb_spec i 0); [reflexivity|].
  apply drop_insert_lt. lia.
Qed.

(** X3. Whatever the rate and the buffer, the baud rate command keeps the
    length of the buffer and never changes a byte behind the first four. *)
Theorem set_baudrate_command_footprint (baudrate : Z) (buf : list byte) :
  length (fst (chipset_set_baudrate_command baudrate buf)) = length buf
  /\ drop 4 (fst (chipset_set_baudrate_command baudrate buf)) = drop 4 buf.
Proof.
  unfold chipset_set_baudrate_command.
  destruct (baudrate_lookup baudrate (length baudrates) 0) as [i found].
  destruct (found =? 0); cbn [fst]; [split; reflexivity|].
  unfold little_endian_store_16. split.
  - rewrite !store_8_length. reflexivity.
  - rewrite !store_8_drop by lia. reflexivity.
Qed.

(** ** Single calls of the state machine *)

(** X4. A call returns Done in exactly two situations: the blob is consumed
    and the reset was sent, or the phase is between containers, the cursor is
    inside the blob and the tag is wrong; and a call that returns Done has
    changed neither the session nor the buffer. *)
Theorem done_exactly_when (blob : list byte) (s : session)
    (buf : list byte) :
  (result_of (chipset_next_command blob s buf) = BTSTACK_CHIPSET_DONE
   <-> (container_blob_size blob <= container_blob_offset s
        /\ em_cpu_reset_sent s <> 0)
       \/ (container_blob_offset s < container_blob_size blob
           /\ upload_state s = UPLOAD_IDLE
           /\ little_endian_read_32 blob (container_blob_offset s)
              <> container_magic))
  /\ (result_of (chipset_next_command blob s buf) = BTSTACK_CHIPSET_DONE ->
      chipset_next_command blob s buf = (BTSTACK_CHIPSET_DONE, s, buf)).
Proof.
  split; [|apply next_command_done_unchanged].
  split.
  - unfold chipset_next_command.
    destruct (Z.leb_spec (container_blob_size blob) (container_blob_offset s))
      as [Hend|Hinside].
    + destruct (Z.eqb_spec 0 (em_cpu_reset_sent s)) as [E|E];
        [discriminate|]. intros _. left. split; [exact Hend|congruence].
    + destruct (upload_state s); [|discriminate].
      destruct (Z.eqb_spec 0x656d3933
                  (little_endian_read_32 blob (container_blob_offset s)))
        as [E|E]; [discriminate|].
      intros _. right. split; [exact Hinside|split; [reflexivity|]].
      unfold container_magic. congruence.
  - intros [[Hend Hreset]|(Hinside & Hidle & Htag)].
    + rewrite next_command_done by assumption. reflexivity.
    + rewrite next_command_bad_tag by assumption. reflexivity.
Qed.

(** X5. The reset flag changes only in a call made with the cursor at or
    past the end of the blob and the flag clear: that call sets it to 1,
    returns a valid command, the CPU reset of opcode 0xFC32 and length 0,
    and moves neither the cursor nor the phase; once set, the flag stays as
    it is. *)
Theorem reset_flag_set_once (blob : list byte) (s : session)
    (buf : list byte) :
  let o := chipset_next_command blob s buf in
  (em_cpu_reset_sent (session_of o) <> em_cpu_reset_sent s ->
   container_blob_size blob <= container_blob_offset s
   /\ em_cpu_reset_sent s = 0
   /\ em_cpu_reset_sent (session_of o) = 1
   /\ result_of o = BTSTACK_CHIPSET_VALID_COMMAND
   /\ container_blob_offset (session_of o) = container_blob_offset s
   /\ upload_state (session_of o) = upload_state s)
  /\ (em_cpu_reset_sent s <> 0 ->
      em_cpu_reset_sent (session_of o) = em_cpu_reset_sent s)
  /\ (container_blob_offset s < container_blob_size blob ->
      em_cpu_reset_sent (session_of o) = em_cpu_reset_sent s)
  /\ (container_blob_size blob <= container_blob_offset s ->
      em_cpu_reset_sent s = 0 ->
      3 <= Z.of_nat (length buf) ->
      buffer_of o = [x32; xfc; x00] ++ drop 3 buf).
Proof.
  cbv zeta.
  split; [|split; [|split]];
    [| | |intros Hend Hr Hbuf; rewrite next_command_reset by assumption;
          reflexivity].
  all: unfold chipset_next_command.
  all: destruct (Z.leb_spec (container_blob_size blob) (container_blob_offset s))
         as [Hend|Hinside];
       [destruct (Z.eqb_spec 0 (em_cpu_reset_sent s)) as [E|E]
       |destruct (upload_state s); [destruct (negb _)|]];
       unfold session_of, result_of;
       cbn [fst snd em_cpu_reset_sent container_blob_offset upload_state];
       intros; repeat split; try congruence; try lia.
Qed.

(** ** The session left over from an earlier upload *)




(** ** What the frames carry *)

Lemma frame_data_start (s : session) (chunk rest : list byte) :
  chunk_size chunk <= 59 ->
  frame_data (BTSTACK_CHIPSET_VALID_COMMAND, s, patch_start_frame chunk rest)
  = chunk.
Proof.
  intros Hn. unfold frame_data, result_of, buffer_of. cbn [fst snd].
  rewrite frame_length_start by exact Hn.
  change (frame_opcode (patch_start_frame chunk rest)) with 0xFC27.
  cbn [Z.eqb HCI_OPCODE_EM_WRITE_PATCH_START Pos.eqb].
  unfold patch_start_frame. cbn [app le32_bytes drop].
  replace (Z.to_nat (5 + chunk_size chunk - 5)) with (length chunk)
    by (unfold chunk_size; lia).
  apply take_app_length.
Qed.

Lemma frame_data_continue (s : session) (seq : Z) (chunk rest : list byte) :
  chunk_size chunk <= 58 ->
  frame_data (BTSTACK_CHIPSET_VALID_COMMAND, s,
              patch_continue_frame seq chunk rest)
  = chunk.
Proof.
  intros Hn. unfold frame_data, result_of, buffer_of. cbn [fst snd].
  rewrite frame_length_continue by exact Hn.
  change (frame_opcode (patch_continue_frame seq chunk rest)) with 0xFC28.
  cbn [Z.eqb HCI_OPCODE_EM_WRITE_PATCH_START
         HCI_OPCODE_EM_WRITE_PATCH_CONTINUE Pos.eqb].
  unfold patch_continue_frame. cbn [app le32_bytes le16_bytes drop].
  replace (Z.to_nat (6 + chunk_size chunk - 6)) with (length chunk)
    by (unfold chunk_size; lia).
  apply take_app_length.
Qed.

Lemma crc32_reference_range (data : list byte) :
  0 <= CRC.crc32_reference data < 2 ^ 32.
Proof.
  unfold CRC.crc32_reference. apply lxor_range; [lia| |lia].
  apply CRCProofs.fold_reference_range. lia.
Qed.

Lemma btstack_crc32_whole (data : list byte) :
  CRC.btstack_crc32 data (Z.of_nat (length data)) = CRC.crc32_reference data.
Proof.
  rewrite CRCProofs.btstack_crc32_reference by lia.
  f_equal. apply take_ge. lia.
Qed.

Lemma frame_intact_start (s : session) (chunk rest : list byte) :
  chunk_size chunk <= 59 ->
  frame_intact (BTSTACK_CHIPSET_VALID_COMMAND, s,
                patch_start_frame chunk rest) = true.
Proof.
  intros Hn. unfold frame_intact. rewrite frame_data_start by exact Hn.
  unfold frame_crc, result_of, buffer_of. cbn [fst snd].
  change (frame_opcode (patch_start_frame chunk rest)) with 0xFC27.
  cbn [Z.eqb HCI_OPCODE_EM_WRITE_PATCH_START Pos.eqb].
  unfold patch_start_frame. cbn [app].
  rewrite little_endian_read_32_drop by lia.
  change (drop (Z.to_nat 4) (?a :: ?b :: ?c :: ?d :: ?l)) with l.
  rewrite read_32_le32_bytes by apply crc32_reference_range.
  rewrite btstack_crc32_whole. apply Z.eqb_refl.
Qed.

Lemma frame_intact_continue (s : session) (seq : Z)
    (chunk rest : list byte) :
  chunk_size chunk <= 58 ->
  frame_intact (BTSTACK_CHIPSET_VALID_COMMAND, s,
                patch_continue_frame seq chunk rest) = true.
Proof.
  intros Hn. unfold frame_intact. rewrite frame_data_continue by exact Hn.
  unfold frame_crc, result_of, buffer_of. cbn [fst snd].
  change (frame_opcode (patch_continue_frame seq chunk rest)) with 0xFC28.
  cbn [Z.eqb HCI_OPCODE_EM_WRITE_PATCH_START
         HCI_OPCODE_EM_WRITE_PATCH_CONTINUE Pos.eqb].
  unfold patch_continue_frame. cbn [app le16_bytes].
  rewrite little_endian_read_32_drop by lia.
  change (drop (Z.to_nat 5) (?a :: ?b :: ?c :: ?d :: ?e :: ?l)) with l.
  rewrite read_32_le32_bytes by apply crc32_reference_range.
  rewrite btstack_crc32_whole. apply Z.eqb_refl.
Qed.

Lemma drop_patch_start_frame (chunk buf : list byte) (n : Z) :
  chunk_size chunk = n -> n <= 59 ->
  drop 67 (patch_start_frame chunk (drop (Z.to_nat (8 + n)) buf))
  = drop 67 buf.
Proof.
  intros Hsz Hn. unfold patch_start_frame. cbn [app le32_bytes].
  unfold chunk_size in Hsz.
  replace 67%nat with (8 + (length chunk + (59 - length chunk)))%nat by lia.
  cbn [drop Nat.add]. rewrite <- drop_drop, drop_app_length, drop_drop.
  f_equal. lia.
Qed.

Lemma drop_patch_continue_frame (seq : Z) (chunk buf : list byte) (n : Z) :
  chunk_size chunk = n -> n <= 58 ->
  drop 67 (patch_continue_frame seq chunk (drop (Z.to_nat (9 + n)) buf))
  = drop 67 buf.
Proof.
  intros Hsz Hn. unfold patch_continue_frame. cbn [app le32_bytes le16_bytes].
  unfold chunk_size in Hsz.
  replace 67%nat with (9 + (length chunk + (58 - length chunk)))%nat by lia.
  cbn [drop Nat.add]. rewrite <- drop_drop, drop_app_length, drop_drop.
  f_equal. lia.
Qed.

Lemma blob_slice_empty (blob : list byte) (pos n : Z) :
  n = 0 -> blob_slice blob pos n = [].
Proof. intros ->. reflexivity. Qed.

(** One call between two calls of an upload of a well-formed blob: the frame
    passes the CRC check, carries the bytes of the blob the cursor moved
    over, and lies in the first 67 bytes of the buffer; the cursor moves
    unless it is at the end. *)
Lemma upload_step (blob : list byte) (s : session) (buf : list byte) :
  container_blob_size blob < 2 ^ 32 ->
  between_calls blob s ->
  67 <= Z.of_nat (length buf) ->
  let o := chipset_next_command blob s buf in
  frame_intact o = true
  /\ frame_data o
     = blob_slice blob (container_blob_offset s)
         (container_blob_offset (session_of o) - container_blob_offset s)
  /\ length (buffer_of o) = length buf
  /\ drop 67 (buffer_of o) = drop 67 buf
  /\ (container_blob_offset s < container_blob_size blob ->
      container_blob_offset s < container_blob_offset (session_of o)).
Proof.
  intros Hsize Hinv Hbuf. cbv zeta.
  destruct Hinv as [sizes Hst Ho Hwf|sizes Hst Ho He Hwf].
  - inversion Hwf as [Hend|pos total sizes' Hpos Htag Htotal H8 Hfit Hwf' Epos].
    + destruct (Z.eq_dec (em_cpu_reset_sent s) 0) as [Hr|Hr].
      * rewrite next_command_reset by lia.
        unfold session_of, buffer_of. cbn [fst snd container_blob_offset].
        rewrite blob_slice_empty by lia.
        split; [reflexivity|split; [reflexivity|split; [|split; [|lia]]]].
        -- rewrite length_app, length_drop. cbn [length]. lia.
        -- change 67%nat with (3 + 64)%nat. cbn [app drop Nat.add].
           rewrite drop_drop. reflexivity.
      * rewrite next_command_done by (assumption || lia).
        unfold session_of, buffer_of. cbn [fst snd].
        rewrite blob_slice_empty by lia. repeat split; lia.
    + set (o := container_blob_offset s) in *.
      assert (Hce : start_container_end blob s = o + total).
      { unfold start_container_end. fold o.
        rewrite (u32_small (o + 4)) by lia. rewrite Htotal.
        apply u32_small. lia. }
      assert (Hn : start_chunk_size blob s = Z.min 59 total).
      { unfold start_chunk_size. rewrite Hce. fold o.
        rewrite btstack_min_spec.
        replace (o + total - o) with total by lia.
        rewrite u32_small by lia. reflexivity. }
      pose proof (next_command_start blob s buf) as Hstep. cbv zeta in Hstep.
      fold o in Hstep. rewrite Hn in Hstep.
      specialize (Hstep ltac:(lia) Hst Htag ltac:(lia) ltac:(lia)).
      rewrite (u32_small (o + Z.min 59 total)) in Hstep by lia.
      assert (Hsz : chunk_size (blob_slice blob o (Z.min 59 total))
                    = Z.min 59 total) by (apply blob_slice_length; lia).
      rewrite Hstep. unfold session_of, buffer_of.
      cbn [fst snd container_blob_offset].
      rewrite frame_intact_start, frame_data_start by lia.
      replace (o + Z.min 59 total - o) with (Z.min 59 total) by lia.
      split; [reflexivity|split; [reflexivity|split; [|split; [|lia]]]].
      * apply patch_start_frame_length; [exact Hsz|lia].
      * apply drop_patch_start_frame; [exact Hsz|lia].
  - set (o := container_blob_offset s) in *.
    set (n := Z.min 58 (container_end s - o)).
    assert (Hn : continue_chunk_size s = n).
    { unfold continue_chunk_size. fold o.
      rewrite btstack_min_spec, u32_small by lia. reflexivity. }
    pose proof (next_command_continue blob s buf) as Hstep.
    cbv zeta in Hstep. fold o in Hstep. rewrite Hn in Hstep.
    specialize (Hstep ltac:(lia) Hst ltac:(lia) ltac:(lia)).
    rewrite (u32_small (o + n)) in Hstep by lia.
    assert (Hsz : chunk_size (blob_slice blob o n) = n)
      by (apply blob_slice_length; lia).
    rewrite Hstep. unfold session_of, buffer_of.
    cbn [fst snd container_blob_offset].
    rewrite frame_intact_continue, frame_data_continue by lia.
    replace (o + n - o) with n by lia.
    split; [reflexivity|split; [reflexivity|split; [|split; [|lia]]]].
    + apply patch_continue_frame_length; [exact Hsz|lia].
    + apply drop_patch_continue_frame; [exact Hsz|lia].
Qed.

(** ** Whole uploads of well-formed blobs *)

Lemma run_snoc (blob : list byte) (n : nat) (s : session) (buf : list byte) :
  run blob (S n) s buf
  = run blob n s buf
      ++ [chipset_next_command blob (fst (after blob n s buf))
            (snd (after blob n s buf))].
Proof.
  replace (S n) with (n + 1)%nat by lia. rewrite run_app. reflexivity.
Qed.

Lemma after_invariant (blob : list byte) (sizes : list Z) (prior : session)
    (buf : list byte) (n : nat) :
  well_formed blob sizes ->
  67 <= Z.of_nat (length buf) ->
  between_calls blob (fst (after blob n (chipset_init prior) buf))
  /\ length (snd (after blob n (chipset_init prior) buf)) = length buf
  /\ drop 67 (snd (after blob n (chipset_init prior) buf)) = drop 67 buf.
Proof.
  intros Hwf Hbuf.
  split; [apply (between_calls_after blob sizes), Hwf|].
  induction n as [|n [IHlen IHdrop]]; [split; reflexivity|].
  rewrite after_S_last. cbv zeta. cbn [snd].
  pose proof (between_calls_after blob sizes prior buf n Hwf) as Hinv.
  destruct Hwf as [Hsize _].
  destruct (upload_step blob _ (snd (after blob n (chipset_init prior) buf))
              Hsize Hinv ltac:(lia)) as (_ & _ & Hlen & Hdrop & _).
  split; congruence.
Qed.

Lemma after_containers (blob : list byte) (pos : Z) (sizes : list Z) :
  container_blob_size blob < 2 ^ 32 ->
  containers_at blob pos sizes ->
  forall (s : session) (buf : list byte),
    upload_state s = UPLOAD_IDLE ->
    container_blob_offset s = pos ->
    67 <= Z.of_nat (length buf) ->
    container_blob_offset (fst (after blob (upload_calls sizes) s buf))
    = container_blob_size blob.
Proof.
  intros Hsize Hwf.
  induction Hwf as [|pos total sizes Hpos Htag Htotal H8 Hfit Hwf IH];
    intros s buf Hst Ho Hbuf.
  - cbn [upload_calls map list_sum after fst]. exact Ho.
  - subst pos.
    destruct (run_container blob Hsize s buf total
                Hst Hpos Htag Htotal H8 Hfit Hbuf)
      as (_ & Hoff & Hstate & _ & Hlen).
    change (upload_calls (total :: sizes))
      with (container_calls total + upload_calls sizes)%nat.
    rewrite after_app. apply IH; [exact Hstate|exact Hoff|lia].
Qed.

Lemma cursor_stays_at_end (blob : list byte) (m : nat) :
  container_blob_size blob < 2 ^ 32 ->
  forall (s : session) (buf : list byte),
    between_calls blob s ->
    container_blob_offset s = container_blob_size blob ->
    container_blob_offset (fst (after blob m s buf)) = container_blob_size blob.
Proof.
  intros Hsize. induction m as [|m IH]; intros s buf Hinv Hend.
  - exact Hend.
  - cbn [after].
    destruct (between_calls_step blob s buf Hsize Hinv) as [Hinv' Hmono].
    apply IH; [exact Hinv'|lia].
Qed.

Lemma blob_slice_whole (blob : list byte) :
  blob_slice blob 0 (container_blob_size blob) = blob.
Proof.
  unfold blob_slice, container_blob_size. rewrite drop_0.
  apply take_ge. lia.
Qed.

Lemma blob_slice_app (blob : list byte) (a b : Z) :
  0 <= a -> 0 <= b ->
  blob_slice blob 0 a ++ blob_slice blob a b = blob_slice blob 0 (a + b).
Proof.
  intros Ha Hb. unfold blob_slice. rewrite !drop_0, take_take_drop.
  f_equal. lia.
Qed.

(** X7. During the upload of a well-formed blob the data bytes of the frames
    sent so far, put end to end, are the bytes of the blob before the cursor;
    once all the frames are sent they are the blob itself, byte for byte. *)
Theorem frames_carry_the_blob (blob : list byte) (sizes : list Z)
    (prior : session) (buf : list byte) (n : nat)
    (Hwf : well_formed blob sizes)
    (Hbuf : 67 <= Z.of_nat (length buf)) :
  concat (map frame_data (run blob n (chipset_init prior) buf))
  = blob_slice blob 0
      (container_blob_offset (fst (after blob n (chipset_init prior) buf)))
  /\ ((upload_calls sizes <= n)%nat ->
      concat (map frame_data (run blob n (chipset_init prior) buf)) = blob).
Proof.
  assert (Hprefix : forall k,
            concat (map frame_data (run blob k (chipset_init prior) buf))
            = blob_slice blob 0
                (container_blob_offset
                   (fst (after blob k (chipset_init prior) buf)))).
  { induction k as [|k IH]; [reflexivity|].
    rewrite run_snoc, map_app, concat_app, IH. cbn [map concat].
    rewrite app_nil_r, after_S_last. cbv zeta. cbn [fst].
    destruct (after_invariant blob sizes prior buf k Hwf Hbuf)
      as (Hinv & Hlen & _).
    pose proof Hwf as [Hsize _].
    destruct (upload_step blob _ (snd (after blob k (chipset_init prior) buf))
                Hsize Hinv ltac:(lia)) as (_ & Hdata & _).
    destruct (between_calls_step blob _
                (snd (after blob k (chipset_init prior) buf)) Hsize Hinv)
      as [_ Hmono].
    rewrite Hdata, blob_slice_app by (destruct Hinv; lia).
    f_equal. lia. }
  split; [apply Hprefix|].
  intros Hn. rewrite Hprefix.
  replace n with (upload_calls sizes + (n - upload_calls sizes))%nat by lia.
  rewrite after_app.
  destruct Hwf as [Hsize Hwf].
  pose proof (after_containers blob 0 sizes Hsize Hwf (chipset_init prior) buf
                eq_refl eq_refl Hbuf) as Hend.
  rewrite cursor_stays_at_end; [apply blob_slice_whole|exact Hsize| |exact Hend].
  apply (between_calls_after blob sizes). split; assumption.
Qed.

Lemma frames_carry_the_blob_witness :
  concat (map frame_data (run blob_52 2 (chipset_init zero_session) cmd_buffer))
  = blob_52.
Proof.
  refine (proj2 (frames_carry_the_blob blob_52 [60] zero_session cmd_buffer 2
                   _ _) _).
  - apply (container_well_formed (replicate 52 x00)). vm_compute. reflexivity.
  - vm_compute. discriminate.
  - vm_compute. lia.
Defined.

(** X8. Every frame sent during the upload of a well-formed blob passes the
    receiver's check: its CRC field is the CRC-32 of the data bytes it
    carries. *)
Theorem frames_pass_crc_check (blob : list byte) (sizes : list Z)
    (prior : session) (buf : list byte) (n : nat)
    (Hwf : well_formed blob sizes)
    (Hbuf : 67 <= Z.of_nat (length buf)) :
  forallb frame_intact (run blob n (chipset_init prior) buf) = true.
Proof.
  induction n as [|n IH]; [reflexivity|].
  rewrite run_snoc, forallb_app, IH. cbn [forallb andb].
  rewrite andb_true_r.
  destruct (after_invariant blob sizes prior buf n Hwf Hbuf)
    as (Hinv & Hlen & _).
  destruct Hwf as [Hsize _].
  apply (upload_step blob _ (snd (after blob n (chipset_init prior) buf))
           Hsize Hinv ltac:(lia)).
Qed.

Lemma frames_pass_crc_check_witness :
  forallb frame_intact (run blob_52 4 (chipset_init zero_session) cmd_buffer)
  = true.
Proof.
  refine (frames_pass_crc_check blob_52 [60] zero_session cmd_buffer 4 _ _).
  - apply (container_well_formed (replicate 52 x00)). vm_compute. reflexivity.
  - vm_compute. discriminate.
Defined.

(** X9. During the upload of a well-formed blob every call made with the
    cursor inside the blob moves the cursor forward, so the blob is consumed
    after finitely many calls. *)
Theorem cursor_advances (blob : list byte) (sizes : list Z)
    (prior : session) (buf : list byte) (n : nat)
    (Hwf : well_formed blob sizes)
    (Hbuf : 67 <= Z.of_nat (length buf))
    (Hinside :
       container_blob_offset (fst (after blob n (chipset_init prior) buf))
       < container_blob_size blob) :
  container_blob_offset (fst (after blob n (chipset_init prior) buf))
  < container_blob_offset (fst (after blob (S n) (chipset_init prior) buf)).
Proof.
  rewrite (after_S_last blob n). cbv zeta. cbn [fst].
  destruct (after_invariant blob sizes prior buf n Hwf Hbuf)
    as (Hinv & Hlen & _).
  destruct Hwf as [Hsize _].
  apply (upload_step blob _ (snd (after blob n (chipset_init prior) buf))
           Hsize Hinv ltac:(lia)), Hinside.
Qed.

Lemma cursor_advances_witness :
  container_blob_offset
    (fst (after blob_52 1 (chipset_init zero_session) cmd_buffer))
  < container_blob_offset
      (fst (after blob_52 2 (chipset_init zero_session) cmd_buffer)).
Proof.
  refine (cursor_advances blob_52 [60] zero_session cmd_buffer 1 _ _ _).
  - apply (container_well_formed (replicate 52 x00)). vm_compute. reflexivity.
  - vm_compute. discriminate.
  - vm_compute. reflexivity.
Defined.

(** X10. During the upload of a well-formed blob the calls keep the length
    of the command buffer and never change a byte behind its first 67: a
    buffer of 67 bytes holds every frame. *)
Theorem frames_fit_in_67_bytes (blob : list byte) (sizes : list Z)
    (prior : session) (buf : list byte) (n : nat)
    (Hwf : well_formed blob sizes)
    (Hbuf : 67 <= Z.of_nat (length buf)) :
  length (snd (after blob n (chipset_init prior) buf)) = length buf
  /\ drop 67 (snd (after blob n (chipset_init prior) buf)) = drop 67 buf.
Proof. apply (after_invariant blob sizes prior buf n Hwf Hbuf). Qed.

Lemma frames_fit_in_67_bytes_witness :
  length (snd (after blob_52 3 (chipset_init zero_session)
                 (cmd_buffer ++ [xaa; xbb])))
  = length (cmd_buffer ++ [xaa; xbb])
  /\ drop 67 (snd (after blob_52 3 (chipset_init zero_session)
                     (cmd_buffer ++ [xaa; xbb])))
     = drop 67 (cmd_buffer ++ [xaa; xbb]).
Proof.
  refine (frames_fit_in_67_bytes blob_52 [60] zero_session
            (cmd_buffer ++ [xaa; xbb]) 3 _ _).
  - apply (container_well_formed (replicate 52 x00)). vm_compute. reflexivity.
  - vm_compute. discriminate.
Defined.

Lemma uploaded_bytes_app (evs1 evs2 : list event) :
  uploaded_bytes (evs1 ++ evs2) = uploaded_bytes evs1 + uploaded_bytes evs2.
Proof.
  unfold uploaded_bytes. induction evs1 as [|e evs1 IH]; cbn [app map fold_right].
  - reflexivity.
  - rewrite IH. lia.
Qed.

Lemma uploaded_bytes_done (m : nat) :
  uploaded_bytes (EvReset :: replicate m EvDone) = 0.
Proof.
  unfold uploaded_bytes. cbn [map fold_right event_chunk_size].
  induction m as [|m IH]; cbn [replicate map fold_right event_chunk_size];
    [reflexivity|exact IH].
Qed.

Lemma containers_at_bytes (blob : list byte) (pos : Z) (sizes : list Z) :
  containers_at blob pos sizes ->
  pos + uploaded_bytes (concat (map container_events sizes))
  = container_blob_size blob
  /\ length (concat (map container_events sizes)) = upload_calls sizes.
Proof.
  induction 1 as [|pos total sizes Hpos Htag Htotal H8 Hfit Hwf [IHb IHl]].
  - split; [unfold uploaded_bytes; cbn; lia|reflexivity].
  - cbn [map concat].
    change (upload_calls (total :: sizes))
      with (container_calls total + upload_calls sizes)%nat.
    rewrite uploaded_bytes_app, length_app, IHl.
    rewrite container_events_bytes by lia. split; [lia|].
    unfold container_events, container_calls. cbn [length].
    rewrite continue_events_length. reflexivity.
Qed.

(** X11. The upload of any well-formed blob, of however many containers:
    for each container in turn one Start frame and its Continue frames (the
    sequence numbers as the 16-bit counter holds them: the i-th Continue
    frame of a container carries i modulo 2^16), then one Reset frame, then
    Done for ever; there are as many upload frames as [upload_calls] counts,
    and their chunk sizes add up to the length of the blob. *)
Theorem upload_trace (blob : list byte) (sizes : list Z)
    (prior : session) (buf : list byte) (m : nat)
    (Hwf : well_formed blob sizes)
    (Hbuf : 67 <= Z.of_nat (length buf)) :
  events blob (upload_calls sizes + S m) (chipset_init prior) buf
  = concat (map container_events sizes) ++ EvReset :: replicate m EvDone
  /\ length (concat (map container_events sizes)) = upload_calls sizes
  /\ uploaded_bytes
       (events blob (upload_calls sizes + S m) (chipset_init prior) buf)
     = container_blob_size blob
  /\ (forall (total : Z) (i : nat),
        (i < Z.to_nat (continue_count total))%nat ->
        container_events total !! S i
        = Some (EvContinue (u16 (1 + Z.of_nat i))
                  (Z.min 58 (total - 59 - 58 * Z.of_nat i)))).
Proof.
  destruct Hwf as [Hsize Hwf].
  pose proof (events_containers blob 0 sizes Hsize Hwf (chipset_init prior)
                buf m eq_refl eq_refl eq_refl Hbuf) as Hev.
  destruct (containers_at_bytes blob 0 sizes Hwf) as [Hbytes Hlen].
  split; [exact Hev|split; [exact Hlen|split]].
  - rewrite Hev, uploaded_bytes_app, uploaded_bytes_done. lia.
  - intros total i Hi. unfold container_events.
    rewrite lookup_cons_ne_0 by lia. cbn [Nat.pred].
    apply continue_events_lookup; [exact Hi|].
    change (2 ^ 16) with 65536. lia.
Qed.

Lemma upload_trace_witness :
  events (blob_52 ++ blob_52) (upload_calls [60; 60] + 3)
    (chipset_init zero_session) cmd_buffer
  = concat (map container_events [60; 60]) ++ EvReset :: replicate 2 EvDone.
Proof.
  refine (proj1 (upload_trace (blob_52 ++ blob_52) [60; 60] zero_session
                   cmd_buffer 2 _ _)).
  - split; [vm_compute; reflexivity|].
    apply containers_next;
      [lia|vm_compute; reflexivity..|lia|vm_compute; discriminate|].
    apply containers_next;
      [lia|vm_compute; reflexivity..|lia|vm_compute; discriminate|].
    apply containers_end.
  - vm_compute. discriminate.
Defined.

(** ** A container of size zero *)

Lemma empty_container_step (blob : list byte) (s : session)
    (buf : list byte) :
  container_blob_size blob < 2 ^ 32 ->
  0 <= container_blob_offset s ->
  container_blob_offset s + 8 <= container_blob_size blob ->
  upload_state s = UPLOAD_IDLE ->
  little_endian_read_32 blob (container_blob_offset s) = container_magic ->
  little_endian_read_32 blob (container_blob_offset s + 4) = 0 ->
  8 <= Z.of_nat (length buf) ->
  chipset_next_command blob s buf
  = (BTSTACK_CHIPSET_VALID_COMMAND,
     {| container_blob_offset := container_blob_offset s;
        container_end := container_blob_offset s;
        patch_sequence_number := 1;
        em_cpu_reset_sent := em_cpu_reset_sent s;
        upload_state := UPLOAD_IDLE |},
     patch_start_frame [] (drop 8 buf)).
Proof.
  intros Hsize Hpos Hhdr Hst Htag Hzero Hbuf.
  set (o := container_blob_offset s) in *.
  assert (Hce : start_container_end blob s = o).
  { unfold start_container_end. fold o.
    rewrite (u32_small (o + 4)) by lia. rewrite Hzero, Z.add_0_r.
    apply u32_small. lia. }
  assert (Hn : start_chunk_size blob s = 0).
  { unfold start_chunk_size. rewrite Hce. fold o. rewrite Z.sub_diag.
    reflexivity. }
  pose proof (next_command_start blob s buf) as Hstep. cbv zeta in Hstep.
  fold o in Hstep. rewrite Hn, Hce in Hstep.
  specialize (Hstep ltac:(lia) Hst Htag ltac:(lia) ltac:(lia)).
  rewrite Hstep, Z.add_0_r, (u32_small o), Z.ltb_irrefl by lia.
  reflexivity.
Qed.

(** X12. A header with the magic tag and a total size of 0 stalls the
    upload: every call returns a valid Start frame without data, the cursor
    stays where it is, and neither the Reset frame nor Done is ever
    reached. *)
Theorem empty_container_stalls (blob : list byte) (s : session)
    (buf : list byte) (n : nat)
    (Hsize : container_blob_size blob < 2 ^ 32)
    (Hpos : 0 <= container_blob_offset s)
    (Hheader : container_blob_offset s + 8 <= container_blob_size blob)
    (Hidle : upload_state s = UPLOAD_IDLE)
    (Htag : little_endian_read_32 blob (container_blob_offset s)
            = container_magic)
    (Hzero : little_endian_read_32 blob (container_blob_offset s + 4) = 0)
    (Hbuf : 8 <= Z.of_nat (length buf)) :
  events blob n s buf = replicate n (EvStart 0)
  /\ container_blob_offset (fst (after blob n s buf)) = container_blob_offset s
  /\ em_cpu_reset_sent (fst (after blob n s buf)) = em_cpu_reset_sent s.
Proof.
  revert s buf Hpos Hheader Hidle Htag Hzero Hbuf.
  induction n as [|n IH]; intros s buf Hpos Hheader Hidle Htag Hzero Hbuf.
  - repeat split.
  - unfold events in *. cbn [run after map replicate].
    rewrite (empty_container_step blob s buf) by assumption.
    rewrite observe_start by (unfold chunk_size; cbn [length]; lia).
    unfold session_of, buffer_of. cbn [fst snd].
    assert (Hb1 : 8 <= Z.of_nat (length (patch_start_frame [] (drop 8 buf)))).
    { unfold patch_start_frame. rewrite !length_app, length_drop.
      cbn [length le32_bytes]. lia. }
    destruct (IH {| container_blob_offset := container_blob_offset s;
                    container_end := container_blob_offset s;
                    patch_sequence_number := 1;
                    em_cpu_reset_sent := em_cpu_reset_sent s;
                    upload_state := UPLOAD_IDLE |}
                (patch_start_frame [] (drop 8 buf))
                Hpos Hheader eq_refl Htag Hzero Hb1) as (Hev & Hoff & Hreset).
    cbn [container_blob_offset upload_state em_cpu_reset_sent] in *.
    rewrite Hev, Hoff, Hreset. repeat split.
Qed.

Lemma empty_container_stalls_witness :
  events (le32_bytes container_magic ++ le32_bytes 0) 3
    (chipset_init zero_session) cmd_buffer
  = replicate 3 (EvStart 0).
Proof.
  refine (proj1 (empty_container_stalls
                   (le32_bytes container_magic ++ le32_bytes 0)
                   (chipset_init zero_session) cmd_buffer 3 _ _ _ _ _ _ _)).
  - vm_compute. reflexivity.
  - vm_compute. discriminate.
  - vm_compute. discriminate.
  - reflexivity.
  - vm_compute. reflexivity.
  - vm_compute. reflexivity.
  - vm_compute. discriminate.
Defined.

(** ** More on the CRC-32 *)

(** X13. [btstack_crc32] reads the first [size] bytes of the buffer and
    nothing else: two buffers that agree on them have the same CRC, which is
    a 32-bit value. *)
Theorem btstack_crc32_reads_prefix (buf1 buf2 : list byte) (size : Z)
    (Hsize1 : 0 <= size <= Z.of_nat (length buf1))
    (Hsize2 : size <= Z.of_nat (length buf2))
    (Hsame : take (Z.to_nat size) buf1 = take (Z.to_nat size) buf2) :
  CRC.btstack_crc32 buf1 size = CRC.btstack_crc32 buf2 size
  /\ 0 <= CRC.btstack_crc32 buf1 size < 2 ^ 32.
Proof.
  split; [|apply CRCProofs.btstack_crc32_range].
  rewrite !CRCProofs.btstack_crc32_reference by lia.
  rewrite Hsame. reflexivity.
Qed.

Lemma btstack_crc32_reads_prefix_witness :
  CRC.btstack_crc32 [x01; x02; x03] 2 = CRC.btstack_crc32 [x01; x02; xff; xee] 2.
Proof.
  refine (proj1 (btstack_crc32_reads_prefix [x01; x02; x03]
                   [x01; x02; xff; xee] 2 _ _ _)).
  - cbn. lia.
  - cbn. lia.
  - reflexivity.
Defined.

(** The low byte of the register cancels against the complemented low byte
    that is fed in. *)
Lemma absorb_complemented_byte (s k : Z) :
  Nat.iter 8 CRC.shift_bit
    (Z.lxor (Z.lxor s k) (Z.lxor (Z.land s (Z.ones 8)) (Z.ones 8)))
  = Z.lxor (Z.shiftr s 8) (Nat.iter 8 CRC.shift_bit (Z.lxor k (Z.ones 8))).
Proof.
  replace (Z.lxor (Z.lxor s k) (Z.lxor (Z.land s (Z.ones 8)) (Z.ones 8)))
    with (Z.lxor (Z.ldiff s (Z.ones 8)) (Z.lxor k (Z.ones 8))).
  - rewrite CRCProofs.iter_shift_bit_lxor. f_equal.
    rewrite CRCProofs.iter_shift_bit_low_clear.
    + apply Z.bits_inj'. intros i Hi.
      rewrite !Z.shiftr_spec, Z.ldiff_spec by lia.
      rewrite Z.ones_spec_high by lia. apply andb_true_r.
    + intros i Hi. rewrite Z.ldiff_spec, Z.ones_spec_low by lia.
      apply andb_false_r.
  - apply Z.bits_inj'. intros i Hi.
    rewrite !Z.lxor_spec, Z.ldiff_spec, Z.land_spec.
    destruct (Z.testbit s i), (Z.testbit k i), (Z.testbit (Z.ones 8) i);
      reflexivity.
Qed.

(** The byte of the complemented register at bit [k], as it is stored. *)
Lemma complemented_register_byte (r k : Z) :
  Z.land (Z.shiftr 0xFFFFFFFF k) (Z.ones 8) = Z.ones 8 ->
  u8 (Z.shiftr (Z.lxor r 0xFFFFFFFF) k)
  = Z.lxor (Z.land (Z.shiftr r k) (Z.ones 8)) (Z.ones 8).
Proof.
  intros Hk. unfold u8. rewrite <- Z.land_ones by lia.
  rewrite Z.shiftr_lxor, land_lxor_distr_l, Hk. reflexivity.
Qed.

Lemma reference_byte_of_crc (r s k j : Z) :
  Z.land (Z.shiftr 0xFFFFFFFF j) (Z.ones 8) = Z.ones 8 ->
  s = Z.shiftr r j ->
  CRC.crc32_reference_byte (Z.lxor s k)
    (byte_of_Z (Z.shiftr (Z.lxor r 0xFFFFFFFF) j))
  = Z.lxor (Z.shiftr s 8)
      (Nat.iter 8 CRC.shift_bit (Z.lxor k (Z.ones 8))).
Proof.
  intros Hj ->. unfold CRC.crc32_reference_byte.
  rewrite Z_of_byte_of_Z, (complemented_register_byte r j Hj).
  apply absorb_complemented_byte.
Qed.

Lemma crc32_reference_residue (data : list byte) :
  CRC.crc32_reference (data ++ le32_bytes (CRC.crc32_reference data))
  = crc32_residue.
Proof.
  unfold CRC.crc32_reference at 1. rewrite fold_left_app.
  unfold CRC.crc32_reference.
  pose proof (CRCProofs.fold_reference_range data 0xFFFFFFFF ltac:(lia)) as Hr.
  set (r := fold_left CRC.crc32_reference_byte data 0xFFFFFFFF) in *.
  unfold le32_bytes. rewrite !fold_left_step.
  change (fold_left CRC.crc32_reference_byte [] ?x) with x.
  set (k1 := Nat.iter 8 CRC.shift_bit (Z.lxor 0 (Z.ones 8))).
  set (k2 := Nat.iter 8 CRC.shift_bit (Z.lxor k1 (Z.ones 8))).
  set (k3 := Nat.iter 8 CRC.shift_bit (Z.lxor k2 (Z.ones 8))).
  set (k4 := Nat.iter 8 CRC.shift_bit (Z.lxor k3 (Z.ones 8))).
  assert (H1 : CRC.crc32_reference_byte r (byte_of_Z (Z.lxor r 0xFFFFFFFF))
               = Z.lxor (Z.shiftr r 8) k1).
  { pose proof (reference_byte_of_crc r r 0 0 eq_refl
                  (eq_sym (Z.shiftr_0_r r))) as H.
    rewrite Z.lxor_0_r, Z.shiftr_0_r in H. exact H. }
  assert (H2 : CRC.crc32_reference_byte (Z.lxor (Z.shiftr r 8) k1)
                 (byte_of_Z (Z.shiftr (Z.lxor r 0xFFFFFFFF) 8))
               = Z.lxor (Z.shiftr (Z.shiftr r 8) 8) k2)
    by (apply reference_byte_of_crc; reflexivity).
  assert (H3 : CRC.crc32_reference_byte
                 (Z.lxor (Z.shiftr (Z.shiftr r 8) 8) k2)
                 (byte_of_Z (Z.shiftr (Z.lxor r 0xFFFFFFFF) 16))
               = Z.lxor (Z.shiftr (Z.shiftr (Z.shiftr r 8) 8) 8) k3).
  { apply reference_byte_of_crc; [reflexivity|].
    rewrite Z.shiftr_shiftr by lia. reflexivity. }
  assert (H4 : CRC.crc32_reference_byte
                 (Z.lxor (Z.shiftr (Z.shiftr (Z.shiftr r 8) 8) 8) k3)
                 (byte_of_Z (Z.shiftr (Z.lxor r 0xFFFFFFFF) 24))
               = Z.lxor (Z.shiftr (Z.shiftr (Z.shiftr (Z.shiftr r 8) 8) 8) 8)
                   k4).
  { apply reference_byte_of_crc; [reflexivity|].
    rewrite !Z.shiftr_shiftr by lia. reflexivity. }
  rewrite H1, H2, H3, H4.
  rewrite !Z.shiftr_shiftr by lia.
  change (8 + 8 + 8 + 8) with 32.
  rewrite Z.shiftr_div_pow2, Z.div_small, Z.lxor_0_l by lia.
  subst k4 k3 k2 k1. vm_compute. reflexivity.
Qed.

(** X14. The CRC-32 of a message followed by the four little-endian bytes
    of its own CRC-32 is the constant 0x2144DF1C, whatever the message. *)
Theorem btstack_crc32_residue (data : list byte)
    (Hlen : Z.of_nat (length data) + 4 < 2 ^ 16) :
  CRC.btstack_crc32
    (data ++ le32_bytes (CRC.btstack_crc32 data (Z.of_nat (length data))))
    (Z.of_nat (length data) + 4)
  = crc32_residue.
Proof.
  rewrite btstack_crc32_whole.
  replace (Z.of_nat (length data) + 4)
    with (Z.of_nat (length (data ++ le32_bytes (CRC.crc32_reference data))))
    by (rewrite length_app; cbn [length le32_bytes]; lia).
  rewrite btstack_crc32_whole. apply crc32_reference_residue.
Qed.

Lemma btstack_crc32_residue_witness :
  CRC.btstack_crc32
    ([x31; x32; x33]
       ++ le32_bytes (CRC.btstack_crc32 [x31; x32; x33] (Z.of_nat 3)))
    (Z.of_nat 3 + 4)
  = crc32_residue.
Proof.
  refine (btstack_crc32_residue [x31; x32; x33] _). vm_compute. reflexivity.
Defined.

(** ** A corrupted tag in the middle of a blob *)

Lemma run_bad_tag (blob : list byte) (m : nat) (s : session)
    (buf : list byte) :
  container_blob_offset s < container_blob_size blob ->
  upload_state s = UPLOAD_IDLE ->
  little_endian_read_32 blob (container_blob_offset s) <> container_magic ->
  events blob m s buf = replicate m EvDone
  /\ after blob m s buf = (s, buf).
Proof.
  intros Ho Hst Htag. unfold events.
  induction m as [|m [IHev IHafter]]; cbn [run after map replicate].
  - split; reflexivity.
  - rewrite (next_command_bad_tag blob s buf Ho Hst Htag).
    unfold session_of, buffer_of. cbn [fst snd].
    rewrite IHev, IHafter. split; reflexivity.
Qed.

Lemma events_containers_upto (blob : list byte) (pos stop : Z)
    (sizes : list Z) :
  container_blob_size blob < 2 ^ 32 ->
  containers_upto blob pos stop sizes ->
  stop < container_blob_size blob ->
  little_endian_read_32 blob stop <> container_magic ->
  forall (s : session) (buf : list byte) (m : nat),
    upload_state s = UPLOAD_IDLE ->
    container_blob_offset s = pos ->
    67 <= Z.of_nat (length buf) ->
    events blob (upload_calls sizes + m) s buf
    = concat (map container_events sizes) ++ replicate m EvDone
    /\ container_blob_offset (fst (after blob (upload_calls sizes + m) s buf))
       = stop
    /\ em_cpu_reset_sent (fst (after blob (upload_calls sizes + m) s buf))
       = em_cpu_reset_sent s.
Proof.
  intros Hsize Hwf Hstop Htag.
  induction Hwf as [pos|pos stop total sizes Hpos Hmagic Htotal H8 Hfit Hwf IH];
    intros s buf m Hst Ho Hbuf.
  - change (upload_calls [] + m)%nat with m. cbn [map concat app].
    destruct (run_bad_tag blob m s buf) as [Hev Hafter];
      [lia|exact Hst|congruence|].
    rewrite Hev, Hafter. repeat split. exact Ho.
  - subst pos.
    destruct (run_container blob Hsize s buf total
                Hst Hpos Hmagic Htotal H8 Hfit Hbuf)
      as (Hev & Hoff & Hstate & Hreset & Hlen).
    change (upload_calls (total :: sizes))
      with (container_calls total + upload_calls sizes)%nat.
    cbn [map concat].
    rewrite <- Nat.add_assoc, events_app, after_app, Hev, <- app_assoc.
    destruct (IH Hstop Htag _ (snd (after blob (container_calls total) s buf))
                m Hstate Hoff ltac:(lia)) as (IHev & IHoff & IHreset).
    rewrite IHev, IHoff, IHreset, Hreset. repeat split.
Qed.

(** X15. When the containers of a blob are well formed up to some offset
    inside the blob and the tag there is wrong, the upload sends the frames
    of the containers before that offset and then returns Done for ever: the
    cursor stays at the corrupted container and the Reset frame is never
    sent. *)
Theorem upload_halts_at_bad_tag (blob : list byte) (stop : Z)
    (sizes : list Z) (prior : session) (buf : list byte) (m : nat)
    (Hsize : container_blob_size blob < 2 ^ 32)
    (Hgood : containers_upto blob 0 stop sizes)
    (Hstop : stop < container_blob_size blob)
    (Htag : little_endian_read_32 blob stop <> container_magic)
    (Hbuf : 67 <= Z.of_nat (length buf)) :
  let calls := (upload_calls sizes + m)%nat in
  events blob calls (chipset_init prior) buf
  = concat (map container_events sizes) ++ replicate m EvDone
  /\ container_blob_offset (fst (after blob calls (chipset_init prior) buf))
     = stop
  /\ em_cpu_reset_sent (fst (after blob calls (chipset_init prior) buf)) = 0.
Proof.
  cbv zeta.
  apply (events_containers_upto blob 0 stop sizes Hsize Hgood Hstop Htag
           (chipset_init prior) buf m eq_refl eq_refl Hbuf).
Qed.

Lemma upload_halts_at_bad_tag_witness :
  events (blob_52 ++ corrupt_blob) (upload_calls [60] + 2)
    (chipset_init zero_session) cmd_buffer
  = concat (map container_events [60]) ++ replicate 2 EvDone.
Proof.
  refine (proj1 (upload_halts_at_bad_tag (blob_52 ++ corrupt_blob) 60 [60]
                   zero_session cmd_buffer 2 _ _ _ _ _)).
  - vm_compute. reflexivity.
  - apply upto_next;
      [lia|vm_compute; reflexivity..|lia|vm_compute; discriminate|].
    apply upto_here.
  - vm_compute. reflexivity.
  - vm_compute. discriminate.
  - vm_compute. discriminate.
Defined.
